(** * Process descriptor builder of the [chart] package

    A shallow embedding of [newProcess], its [processOption] overlays,
    the scoping predicate [canBeApplied] and the port environment
    derivation [portEnvVariables], followed by the properties of the
    builder that are established about them.

    Conventions of the embedding.
    - Go [int] and [int32] values are [Z]; the code only compares and
      prints them, so no wrap-around arises.
    - A slice is a [list]; the nil slice and the empty slice are both
      [[]] (the code only takes [len], ranges and appends).
    - A [map[string]string] field of the descriptor is an
      [option (gmap string string)]: [None] is the nil map, which the
      code tests for before its first write.
    - A nullable pointer is an [option].
    - [func(p *process) error] mutates the descriptor it is handed and
      may return early with an error; it is a computation in the monad
      [M], which threads the descriptor, stops at the first error and
      records the calls made to the collaborators. *)

From Stdlib Require Import ZArith String List DecimalString.
From stdpp Require Import gmap strings list fin_maps.

Local Open Scope Z_scope.

(** ** Types of the imported packages *)

(** Port specifications of [k8s.io/api/core/v1]: the fields the builder
    reads, with the name and protocol that accompany the number. *)
Module v1.
Module ContainerPort.
Record t : Type := mk
  { Name : string; ContainerPort : Z; Protocol : string }.
End ContainerPort.
Module ServicePort.
Record t : Type := mk
  { Name : string; Port : Z; Protocol : string }.
End ServicePort.
End v1.

(** [ketchv1.Env]: one name/value pair of the environment. *)
Module ketchv1.
Module Env.
Record t : Type := mk { Name : string; Value : string }.
End Env.
End ketchv1.

(** The remaining Kubernetes objects are carried around untouched. *)
Class K8sObjects : Type :=
  { v1_SecurityContext : Type;
    v1_ResourceRequirements : Type;
    v1_NodeSelectorTerm : Type;
    v1_Volume : Type;
    v1_VolumeMount : Type;
    v1_Probe : Type;
    v1_Lifecycle : Type }.

(** What the builder uses of the [ketchv1] API package: the target of a
    metadata item with its three kind tests, and the default number of
    units. *)
Class KetchApi : Type :=
  { ketchv1_Target : Type;
    IsDeployment : ketchv1_Target -> bool;
    IsService : ketchv1_Target -> bool;
    IsPod : ketchv1_Target -> bool;
    DefaultNumberOfUnits : Z }.

(** Go [error] values: the package's own [ErrPortsNotFound], and the
    errors handed back by collaborators, told apart by their message. *)
Inductive error : Type :=
| ErrPortsNotFound
| ErrForeign (msg : string).

(** [Probes]: the bundle returned by the port configurator. *)
Module Probes.
Record t (Probe : Type) : Type := mk
  { Liveness : option Probe;
    Readiness : option Probe;
    StartupProbe : option Probe }.
Arguments mk {Probe}.
Arguments Liveness {Probe}.
Arguments Readiness {Probe}.
Arguments StartupProbe {Probe}.
End Probes.

(** [fmt.Sprintf("%d", n)]: the decimal digits of [n], with a minus
    sign below zero. *)
Definition Sprintf_d (n : Z) : string := NilZero.string_of_int (Z.to_int n).

(** [strings.Join(elems, sep)]. *)
Definition Join (elems : list string) (sep : string) : string :=
  String.concat sep elems.

Section Chart.

Context {K8s : K8sObjects} {Api : KetchApi}.

(** ** The data model *)

Record extraMetadata : Type :=
  { Labels : option (gmap string string);
    Annotations : option (gmap string string) }.

Record process : Type :=
  { Name : string;
    Cmd : list string;
    Units : Z;
    Routable : bool;
    ContainerPorts : list v1.ContainerPort.t;
    ServicePorts : list v1.ServicePort.t;
    PublicServicePort : Z;
    Env : list ketchv1.Env.t;
    SecurityContext : option v1_SecurityContext;
    ResourceRequirements : option v1_ResourceRequirements;
    NodeSelectorTerms : list v1_NodeSelectorTerm;
    Volumes : list v1_Volume;
    VolumeMounts : list v1_VolumeMount;
    ReadinessProbe : option v1_Probe;
    LivenessProbe : option v1_Probe;
    StartupProbe : option v1_Probe;
    Lifecycle : option v1_Lifecycle;
    ServiceMetadata : extraMetadata;
    DeploymentMetadata : extraMetadata;
    PodMetadata : extraMetadata }.

(** [ketchv1.MetadataItem]. [Apply] is only ranged over, so its nil
    map and its empty map are both [∅]. *)
Record MetadataItem : Type :=
  { Target : ketchv1_Target;
    DeploymentVersion : Z;
    ProcessName : string;
    Apply : gmap string string }.

(** [MetadataItem.Validate], of the API package. *)
Class Validator : Type :=
  { Validate : MetadataItem -> option error }.

Context {Val : Validator}.

(** [portConfigurator]: the interface of the port source. *)
Record portConfigurator : Type :=
  { ContainerPortsForProcess : string -> list v1.ContainerPort.t;
    ServicePortsForProcess : string -> list v1.ServicePort.t;
    Probes : Probes.t v1_Probe + error }.

(** Field assignments [p.F = x]. *)
Definition set_Labels (x : option (gmap string string)) (m : extraMetadata)
  : extraMetadata :=
  {| Labels := x; Annotations := Annotations m |}.

Definition set_Annotations (x : option (gmap string string)) (m : extraMetadata)
  : extraMetadata :=
  {| Labels := Labels m; Annotations := x |}.

Definition set_Cmd (x : list string) (p : process) : process :=
  {| Name := Name p; Cmd := x; Units := Units p; Routable := Routable p;
     ContainerPorts := ContainerPorts p; ServicePorts := ServicePorts p;
     PublicServicePort := PublicServicePort p; Env := Env p;
     SecurityContext := SecurityContext p;
     ResourceRequirements := ResourceRequirements p;
     NodeSelectorTerms := NodeSelectorTerms p; Volumes := Volumes p;
     VolumeMounts := VolumeMounts p; ReadinessProbe := ReadinessProbe p;
     LivenessProbe := LivenessProbe p; StartupProbe := StartupProbe p;
     Lifecycle := Lifecycle p; ServiceMetadata := ServiceMetadata p;
     DeploymentMetadata := DeploymentMetadata p; PodMetadata := PodMetadata p |}.

Definition set_Units (x : Z) (p : process) : process :=
  {| Name := Name p; Cmd := Cmd p; Units := x; Routable := Routable p;
     ContainerPorts := ContainerPorts p; ServicePorts := ServicePorts p;
     PublicServicePort := PublicServicePort p; Env := Env p;
     SecurityContext := SecurityContext p;
     ResourceRequirements := ResourceRequirements p;
     NodeSelectorTerms := NodeSelectorTerms p; Volumes := Volumes p;
     VolumeMounts := VolumeMounts p; ReadinessProbe := ReadinessProbe p;
     LivenessProbe := LivenessProbe p; StartupProbe := StartupProbe p;
     Lifecycle := Lifecycle p; ServiceMetadata := ServiceMetadata p;
     DeploymentMetadata := DeploymentMetadata p; PodMetadata := PodMetadata p |}.

Definition set_ContainerPorts (x : list v1.ContainerPort.t) (p : process) : process :=
  {| Name := Name p; Cmd := Cmd p; Units := Units p; Routable := Routable p;
     ContainerPorts := x; ServicePorts := ServicePorts p;
     PublicServicePort := PublicServicePort p; Env := Env p;
     SecurityContext := SecurityContext p;
     ResourceRequirements := ResourceRequirements p;
     NodeSelectorTerms := NodeSelectorTerms p; Volumes := Volumes p;
     VolumeMounts := VolumeMounts p; ReadinessProbe := ReadinessProbe p;
     LivenessProbe := LivenessProbe p; StartupProbe := StartupProbe p;
     Lifecycle := Lifecycle p; ServiceMetadata := ServiceMetadata p;
     DeploymentMetadata := DeploymentMetadata p; PodMetadata := PodMetadata p |}.

Definition set_ServicePorts (x : list v1.ServicePort.t) (p : process) : process :=
  {| Name := Name p; Cmd := Cmd p; Units := Units p; Routable := Routable p;
     ContainerPorts := ContainerPorts p; ServicePorts := x;
     PublicServicePort := PublicServicePort p; Env := Env p;
     SecurityContext := SecurityContext p;
     ResourceRequirements := ResourceRequirements p;
     NodeSelectorTerms := NodeSelectorTerms p; Volumes := Volumes p;
     VolumeMounts := VolumeMounts p; ReadinessProbe := ReadinessProbe p;
     LivenessProbe := LivenessProbe p; StartupProbe := StartupProbe p;
     Lifecycle := Lifecycle p; ServiceMetadata := ServiceMetadata p;
     DeploymentMetadata := DeploymentMetadata p; PodMetadata := PodMetadata p |}.

Definition set_PublicServicePort (x : Z) (p : process) : process :=
  {| Name := Name p; Cmd := Cmd p; Units := Units p; Routable := Routable p;
     ContainerPorts := ContainerPorts p; ServicePorts := ServicePorts p;
     PublicServicePort := x; Env := Env p; SecurityContext := SecurityContext p;
     ResourceRequirements := ResourceRequirements p;
     NodeSelectorTerms := NodeSelectorTerms p; Volumes := Volumes p;
     VolumeMounts := VolumeMounts p; ReadinessProbe := ReadinessProbe p;
     LivenessProbe := LivenessProbe p; StartupProbe := StartupProbe p;
     Lifecycle := Lifecycle p; ServiceMetadata := ServiceMetadata p;
     DeploymentMetadata := DeploymentMetadata p; PodMetadata := PodMetadata p |}.

Definition set_Env (x : list ketchv1.Env.t) (p : process) : process :=
  {| Name := Name p; Cmd := Cmd p; Units := Units p; Routable := Routable p;
     ContainerPorts := ContainerPorts p; ServicePorts := ServicePorts p;
     PublicServicePort := PublicServicePort p; Env := x;
     SecurityContext := SecurityContext p;
     ResourceRequirements := ResourceRequirements p;
     NodeSelectorTerms := NodeSelectorTerms p; Volumes := Volumes p;
     VolumeMounts := VolumeMounts p; ReadinessProbe := ReadinessProbe p;
     LivenessProbe := LivenessProbe p; StartupProbe := StartupProbe p;
     Lifecycle := Lifecycle p; ServiceMetadata := ServiceMetadata p;
     DeploymentMetadata := DeploymentMetadata p; PodMetadata := PodMetadata p |}.

Definition set_SecurityContext (x : option v1_SecurityContext) (p : process) : process :=
  {| Name := Name p; Cmd := Cmd p; Units := Units p; Routable := Routable p;
     ContainerPorts := ContainerPorts p; ServicePorts := ServicePorts p;
     PublicServicePort := PublicServicePort p; Env := Env p; SecurityContext := x;
     ResourceRequirements := ResourceRequirements p;
     NodeSelectorTerms := NodeSelectorTerms p; Volumes := Volumes p;
     VolumeMounts := VolumeMounts p; ReadinessProbe := ReadinessProbe p;
     LivenessProbe := LivenessProbe p; StartupProbe := StartupProbe p;
     Lifecycle := Lifecycle p; ServiceMetadata := ServiceMetadata p;
     DeploymentMetadata := DeploymentMetadata p; PodMetadata := PodMetadata p |}.

Definition set_ResourceRequirements (x : option v1_ResourceRequirements) (p : process) : process :=
  {| Name := Name p; Cmd := Cmd p; Units := Units p; Routable := Routable p;
     ContainerPorts := ContainerPorts p; ServicePorts := ServicePorts p;
     PublicServicePort := PublicServicePort p; Env := Env p;
     SecurityContext := SecurityContext p; ResourceRequirements := x;
     NodeSelectorTerms := NodeSelectorTerms p; Volumes := Volumes p;
     VolumeMounts := VolumeMounts p; ReadinessProbe := ReadinessProbe p;
     LivenessProbe := LivenessProbe p; StartupProbe := StartupProbe p;
     Lifecycle := Lifecycle p; ServiceMetadata := ServiceMetadata p;
     DeploymentMetadata := DeploymentMetadata p; PodMetadata := PodMetadata p |}.

Definition set_Volumes (x : list v1_Volume) (p : process) : process :=
  {| Name := Name p; Cmd := Cmd p; Units := Units p; Routable := Routable p;
     ContainerPorts := ContainerPorts p; ServicePorts := ServicePorts p;
     PublicServicePort := PublicServicePort p; Env := Env p;
     SecurityContext := SecurityContext p;
     ResourceRequirements := ResourceRequirements p;
     NodeSelectorTerms := NodeSelectorTerms p; Volumes := x;
     VolumeMounts := VolumeMounts p; ReadinessProbe := ReadinessProbe p;
     LivenessProbe := LivenessProbe p; StartupProbe := StartupProbe p;
     Lifecycle := Lifecycle p; ServiceMetadata := ServiceMetadata p;
     DeploymentMetadata := DeploymentMetadata p; PodMetadata := PodMetadata p |}.

Definition set_VolumeMounts (x : list v1_VolumeMount) (p : process) : process :=
  {| Name := Name p; Cmd := Cmd p; Units := Units p; Routable := Routable p;
     ContainerPorts := ContainerPorts p; ServicePorts := ServicePorts p;
     PublicServicePort := PublicServicePort p; Env := Env p;
     SecurityContext := SecurityContext p;
     ResourceRequirements := ResourceRequirements p;
     NodeSelectorTerms := NodeSelectorTerms p; Volumes := Volumes p; VolumeMounts := x;
     ReadinessProbe := ReadinessProbe p; LivenessProbe := LivenessProbe p;
     StartupProbe := StartupProbe p; Lifecycle := Lifecycle p;
     ServiceMetadata := ServiceMetadata p; DeploymentMetadata := DeploymentMetadata p;
     PodMetadata := PodMetadata p |}.

Definition set_ReadinessProbe (x : option v1_Probe) (p : process) : process :=
  {| Name := Name p; Cmd := Cmd p; Units := Units p; Routable := Routable p;
     ContainerPorts := ContainerPorts p; ServicePorts := ServicePorts p;
     PublicServicePort := PublicServicePort p; Env := Env p;
     SecurityContext := SecurityContext p;
     ResourceRequirements := ResourceRequirements p;
     NodeSelectorTerms := NodeSelectorTerms p; Volumes := Volumes p;
     VolumeMounts := VolumeMounts p; ReadinessProbe := x;
     LivenessProbe := LivenessProbe p; StartupProbe := StartupProbe p;
     Lifecycle := Lifecycle p; ServiceMetadata := ServiceMetadata p;
     DeploymentMetadata := DeploymentMetadata p; PodMetadata := PodMetadata p |}.

Definition set_LivenessProbe (x : option v1_Probe) (p : process) : process :=
  {| Name := Name p; Cmd := Cmd p; Units := Units p; Routable := Routable p;
     ContainerPorts := ContainerPorts p; ServicePorts := ServicePorts p;
     PublicServicePort := PublicServicePort p; Env := Env p;
     SecurityContext := SecurityContext p;
     ResourceRequirements := ResourceRequirements p;
     NodeSelectorTerms := NodeSelectorTerms p; Volumes := Volumes p;
     VolumeMounts := VolumeMounts p; ReadinessProbe := ReadinessProbe p;
     LivenessProbe := x; StartupProbe := StartupProbe p; Lifecycle := Lifecycle p;
     ServiceMetadata := ServiceMetadata p; DeploymentMetadata := DeploymentMetadata p;
     PodMetadata := PodMetadata p |}.

Definition set_StartupProbe (x : option v1_Probe) (p : process) : process :=
  {| Name := Name p; Cmd := Cmd p; Units := Units p; Routable := Routable p;
     ContainerPorts := ContainerPorts p; ServicePorts := ServicePorts p;
     PublicServicePort := PublicServicePort p; Env := Env p;
     SecurityContext := SecurityContext p;
     ResourceRequirements := ResourceRequirements p;
     NodeSelectorTerms := NodeSelectorTerms p; Volumes := Volumes p;
     VolumeMounts := VolumeMounts p; ReadinessProbe := ReadinessProbe p;
     LivenessProbe := LivenessProbe p; StartupProbe := x; Lifecycle := Lifecycle p;
     ServiceMetadata := ServiceMetadata p; DeploymentMetadata := DeploymentMetadata p;
     PodMetadata := PodMetadata p |}.

Definition set_Lifecycle (x : option v1_Lifecycle) (p : process) : process :=
  {| Name := Name p; Cmd := Cmd p; Units := Units p; Routable := Routable p;
     ContainerPorts := ContainerPorts p; ServicePorts := ServicePorts p;
     PublicServicePort := PublicServicePort p; Env := Env p;
     SecurityContext := SecurityContext p;
     ResourceRequirements := ResourceRequirements p;
     NodeSelectorTerms := NodeSelectorTerms p; Volumes := Volumes p;
     VolumeMounts := VolumeMounts p; ReadinessProbe := ReadinessProbe p;
     LivenessProbe := LivenessProbe p; StartupProbe := StartupProbe p; Lifecycle := x;
     ServiceMetadata := ServiceMetadata p; DeploymentMetadata := DeploymentMetadata p;
     PodMetadata := PodMetadata p |}.

Definition set_ServiceMetadata (x : extraMetadata) (p : process) : process :=
  {| Name := Name p; Cmd := Cmd p; Units := Units p; Routable := Routable p;
     ContainerPorts := ContainerPorts p; ServicePorts := ServicePorts p;
     PublicServicePort := PublicServicePort p; Env := Env p;
     SecurityContext := SecurityContext p;
     ResourceRequirements := ResourceRequirements p;
     NodeSelectorTerms := NodeSelectorTerms p; Volumes := Volumes p;
     VolumeMounts := VolumeMounts p; ReadinessProbe := ReadinessProbe p;
     LivenessProbe := LivenessProbe p; StartupProbe := StartupProbe p;
     Lifecycle := Lifecycle p; ServiceMetadata := x;
     DeploymentMetadata := DeploymentMetadata p; PodMetadata := PodMetadata p |}.

Definition set_DeploymentMetadata (x : extraMetadata) (p : process) : process :=
  {| Name := Name p; Cmd := Cmd p; Units := Units p; Routable := Routable p;
     ContainerPorts := ContainerPorts p; ServicePorts := ServicePorts p;
     PublicServicePort := PublicServicePort p; Env := Env p;
     SecurityContext := SecurityContext p;
     ResourceRequirements := ResourceRequirements p;
     NodeSelectorTerms := NodeSelectorTerms p; Volumes := Volumes p;
     VolumeMounts := VolumeMounts p; ReadinessProbe := ReadinessProbe p;
     LivenessProbe := LivenessProbe p; StartupProbe := StartupProbe p;
     Lifecycle := Lifecycle p; ServiceMetadata := ServiceMetadata p;
     DeploymentMetadata := x; PodMetadata := PodMetadata p |}.

Definition set_PodMetadata (x : extraMetadata) (p : process) : process :=
  {| Name := Name p; Cmd := Cmd p; Units := Units p; Routable := Routable p;
     ContainerPorts := ContainerPorts p; ServicePorts := ServicePorts p;
     PublicServicePort := PublicServicePort p; Env := Env p;
     SecurityContext := SecurityContext p;
     ResourceRequirements := ResourceRequirements p;
     NodeSelectorTerms := NodeSelectorTerms p; Volumes := Volumes p;
     VolumeMounts := VolumeMounts p; ReadinessProbe := ReadinessProbe p;
     LivenessProbe := LivenessProbe p; StartupProbe := StartupProbe p;
     Lifecycle := Lifecycle p; ServiceMetadata := ServiceMetadata p;
     DeploymentMetadata := DeploymentMetadata p; PodMetadata := x |}.

(** ** Computations on the descriptor *)

(** Calls made to the collaborators, in the order they are made. *)
Inductive event : Type :=
| AskServicePorts (name : string)
| AskContainerPorts (name : string)
| AskProbes
| AskValidate (item : MetadataItem).

(** A computation receives the descriptor and yields the descriptor as
    it has mutated it, the calls it made, and a value ([inl]) or the
    error it returned early with ([inr]). *)
Definition M (A : Type) : Type := process -> process * list event * (A + error).

Definition ret {A : Type} (a : A) : M A := fun p => (p, [], inl a).

Definition throw {A : Type} (e : error) : M A := fun p => (p, [], inr e).

Definition bind {A B : Type} (m : M A) (f : A -> M B) : M B :=
  fun p =>
    match m p with
    | (p1, t1, inr e) => (p1, t1, inr e)
    | (p1, t1, inl a) =>
        match f a p1 with
        | (p2, t2, r) => (p2, t1 ++ t2, r)
        end
    end.

Definition get : M process := fun p => (p, [], inl p).

Definition modify (f : process -> process) : M unit := fun p => (f p, [], inl tt).

Definition emit (ev : event) : M unit := fun p => (p, [ev], inl tt).

Notation "x <- c1 ;; c2" := (bind c1 (fun x => c2))
  (at level 100, c1 at next level, right associativity).
Notation "c1 ;; c2" := (bind c1 (fun _ => c2))
  (at level 100, right associativity).

(** [for _, x := range l { body }] *)
Fixpoint forEach {A : Type} (l : list A) (body : A -> M unit) : M unit :=
  match l with
  | [] => ret tt
  | x :: rest => body x ;; forEach rest body
  end.

(** ** Overlay operations *)

(** [processOption], a function from a descriptor pointer to an error;
    the Go [nil] error is [inl tt]. *)
Definition processOption : Type := M unit.

Definition withUnits (units : option Z) : processOption :=
  match units with
  | Some u => modify (set_Units u)
  | None => ret tt
  end.

Definition withEnvs (envs : list ketchv1.Env.t) : processOption :=
  modify (set_Env envs).

Definition withCmd (cmd : list string) : processOption :=
  modify (set_Cmd cmd).

(** The three methods of the port source, as calls. *)
Definition callServicePorts (c : portConfigurator) (name : string)
  : M (list v1.ServicePort.t) :=
  emit (AskServicePorts name) ;; ret (ServicePortsForProcess c name).

Definition callContainerPorts (c : portConfigurator) (name : string)
  : M (list v1.ContainerPort.t) :=
  emit (AskContainerPorts name) ;; ret (ContainerPortsForProcess c name).

Definition callProbes (c : portConfigurator) : M (Probes.t v1_Probe) :=
  emit AskProbes ;;
  match Probes c with
  | inl probes => ret probes
  | inr err => throw err
  end.

Definition withPortsAndProbes (c : portConfigurator) : processOption :=
  p <- get ;;
  sps <- callServicePorts c (Name p) ;;
  modify (set_ServicePorts sps) ;;
  p <- get ;;
  cps <- callContainerPorts c (Name p) ;;
  modify (set_ContainerPorts cps) ;;
  p <- get ;;
  if (length (ContainerPorts p) =? 0)%nat || (length (ServicePorts p) =? 0)%nat
  then ret tt
  else
    probes <- callProbes c ;;
    p <- get ;;
    match ServicePorts p with
    | sp0 :: _ => modify (set_PublicServicePort (v1.ServicePort.Port sp0))
    | [] => ret tt (* not reached: the list was just found non-empty *)
    end ;;
    modify (set_LivenessProbe (Probes.Liveness probes)) ;;
    modify (set_ReadinessProbe (Probes.Readiness probes)) ;;
    modify (set_StartupProbe (Probes.StartupProbe probes)) ;;
    ret tt.

Definition withSecurityContext (securityContext : option v1_SecurityContext)
  : processOption :=
  modify (set_SecurityContext securityContext).

Definition withLifecycle (lc : option v1_Lifecycle) : processOption :=
  modify (set_Lifecycle lc).

Definition withResourceRequirements (rr : option v1_ResourceRequirements)
  : processOption :=
  modify (set_ResourceRequirements rr).

Definition withVolumes (volumes : list v1_Volume) : processOption :=
  modify (set_Volumes volumes).

Definition withVolumeMounts (vm : list v1_VolumeMount) : processOption :=
  modify (set_VolumeMounts vm).

(** [if m == nil { m = make(map[string]string) }] *)
Definition makeIfNil (m : option (gmap string string)) : option (gmap string string) :=
  match m with
  | None => Some ∅
  | Some _ => m
  end.

(** [m[k] = v], on a map that has been made. *)
Definition mapStore (k v : string) (m : option (gmap string string))
  : option (gmap string string) :=
  match m with
  | Some kvs => Some (<[k:=v]> kvs)
  | None => None (* not reached: every store follows [makeIfNil] *)
  end.

(** Access paths [p.<Bucket>Metadata.Labels] and [.Annotations]. *)
Definition onDeploymentLabels (f : option (gmap string string) -> option (gmap string string))
  (p : process) : process :=
  set_DeploymentMetadata (set_Labels (f (Labels (DeploymentMetadata p))) (DeploymentMetadata p)) p.

Definition onServiceLabels (f : option (gmap string string) -> option (gmap string string))
  (p : process) : process :=
  set_ServiceMetadata (set_Labels (f (Labels (ServiceMetadata p))) (ServiceMetadata p)) p.

Definition onPodLabels (f : option (gmap string string) -> option (gmap string string))
  (p : process) : process :=
  set_PodMetadata (set_Labels (f (Labels (PodMetadata p))) (PodMetadata p)) p.

Definition onDeploymentAnnotations (f : option (gmap string string) -> option (gmap string string))
  (p : process) : process :=
  set_DeploymentMetadata
    (set_Annotations (f (Annotations (DeploymentMetadata p))) (DeploymentMetadata p)) p.

Definition onServiceAnnotations (f : option (gmap string string) -> option (gmap string string))
  (p : process) : process :=
  set_ServiceMetadata
    (set_Annotations (f (Annotations (ServiceMetadata p))) (ServiceMetadata p)) p.

Definition onPodAnnotations (f : option (gmap string string) -> option (gmap string string))
  (p : process) : process :=
  set_PodMetadata (set_Annotations (f (Annotations (PodMetadata p))) (PodMetadata p)) p.

(** [canBeApplied]: the scoping test of a metadata item.
    [ketchv1.DeploymentVersion] is an integer type, so that the
    conversion [int(version)] is [version] itself. *)
Definition canBeApplied (item : MetadataItem) (processName : string) (version : Z) : bool :=
  if (DeploymentVersion item >? 0) && negb (version =? DeploymentVersion item) then false
  else if bool_decide (ProcessName item ≠ "") && bool_decide (processName ≠ ProcessName item)
  then false
  else true.

(** [item.Validate()], as a call. *)
Definition callValidate (item : MetadataItem) : M unit :=
  emit (AskValidate item) ;;
  match Validate item with
  | Some err => throw err
  | None => ret tt
  end.

(** [withLabels]. Ranging over [label.Apply] visits every pair once, in
    the order of [map_to_list]; the keys of a map being distinct, the
    descriptor reached is the same in any order. *)
Definition withLabels (labels : list MetadataItem) (deploymentVersion : Z) : processOption :=
  forEach labels (fun label =>
    p <- get ;;
    if negb (canBeApplied label (Name p) deploymentVersion) then ret tt (* continue *)
    else
      callValidate label ;;
      forEach (map_to_list (Apply label)) (fun kv =>
        if IsDeployment (Target label) then
          modify (onDeploymentLabels makeIfNil) ;;
          modify (onDeploymentLabels (mapStore kv.1 kv.2))
        else if IsService (Target label) then
          modify (onServiceLabels makeIfNil) ;;
          modify (onServiceLabels (mapStore kv.1 kv.2))
        else if IsPod (Target label) then
          modify (onPodLabels makeIfNil) ;;
          modify (onPodLabels (mapStore kv.1 kv.2))
        else ret tt)).

(** [withAnnotations]. *)
Definition withAnnotations (annotations : list MetadataItem) (deploymentVersion : Z)
  : processOption :=
  forEach annotations (fun annotation =>
    p <- get ;;
    if negb (canBeApplied annotation (Name p) deploymentVersion) then ret tt (* continue *)
    else
      callValidate annotation ;;
      forEach (map_to_list (Apply annotation)) (fun kv =>
        if IsDeployment (Target annotation) then
          modify (onDeploymentAnnotations makeIfNil) ;;
          modify (onDeploymentAnnotations (mapStore kv.1 kv.2))
        else if IsService (Target annotation) then
          modify (onServiceAnnotations makeIfNil) ;;
          modify (onServiceAnnotations (mapStore kv.1 kv.2))
        else if IsPod (Target annotation) then
          modify (onPodAnnotations makeIfNil) ;;
          modify (onPodAnnotations (mapStore kv.1 kv.2))
        else ret tt)).

(** ** The builder *)

Definition hasOpenPort (p : process) : bool :=
  (0 <? length (ContainerPorts p))%nat && (0 <? length (ServicePorts p))%nat.

Definition portEnvVariables (p : process) : list ketchv1.Env.t :=
  if (length (ContainerPorts p) =? 0)%nat then []
  else
    let envs : list ketchv1.Env.t := [] in
    let envs :=
      if (length (ContainerPorts p) =? 1)%nat then
        match ContainerPorts p with
        | cp0 :: _ =>
            let portValue := Sprintf_d (v1.ContainerPort.ContainerPort cp0) in
            let envs := envs ++ [ketchv1.Env.mk "port" portValue] in
            envs ++ [ketchv1.Env.mk "PORT" portValue]
        | [] => envs (* not reached: the length is one *)
        end
      else envs in
    let ports :=
      map (fun port => Sprintf_d (v1.ContainerPort.ContainerPort port)) (ContainerPorts p) in
    envs ++ [ketchv1.Env.mk ("PORT_" +:+ Name p) (Join ports ",")].

(** The literal [&process{Name: name, Units: ..., Routable: isRoutable}]:
    every other field has its zero value. *)
Definition emptyMetadata : extraMetadata := {| Labels := None; Annotations := None |}.

Definition newDescriptor (name : string) (isRoutable : bool) : process :=
  {| Name := name; Cmd := []; Units := DefaultNumberOfUnits; Routable := isRoutable;
     ContainerPorts := []; ServicePorts := []; PublicServicePort := 0; Env := [];
     SecurityContext := None; ResourceRequirements := None; NodeSelectorTerms := [];
     Volumes := []; VolumeMounts := []; ReadinessProbe := None; LivenessProbe := None;
     StartupProbe := None; Lifecycle := None; ServiceMetadata := emptyMetadata;
     DeploymentMetadata := emptyMetadata; PodMetadata := emptyMetadata |}.

(** [for _, opt := range opts { if err := opt(process); err != nil { return nil, err } }] *)
Fixpoint applyOpts (opts : list processOption) : M unit :=
  match opts with
  | [] => ret tt
  | opt :: rest => opt ;; applyOpts rest
  end.

(** The statements of [newProcess] that follow the allocation. *)
Definition finish : M unit :=
  p <- get ;;
  modify (set_Env (Env p ++ portEnvVariables p)) ;;
  p <- get ;;
  if negb (Routable p) then ret tt
  else if negb (hasOpenPort p) then throw ErrPortsNotFound
  else ret tt.

Definition runNewProcess (name : string) (isRoutable : bool) (opts : list processOption)
  : process * list event * (unit + error) :=
  (applyOpts opts ;; finish) (newDescriptor name isRoutable).

(** [newProcess]: the descriptor pointer and the error it returns; the
    nil pointer and the nil error are [None]. *)
Definition newProcess (name : string) (isRoutable : bool) (opts : list processOption)
  : option process * option error :=
  match runNewProcess name isRoutable opts with
  | (p, _, inl _) => (Some p, None)
  | (_, _, inr err) => (None, Some err)
  end.

(** The calls [newProcess] makes to the collaborators. *)
Definition callsOfNewProcess (name : string) (isRoutable : bool) (opts : list processOption)
  : list event :=
  (runNewProcess name isRoutable opts).1.2.

(** ** Vocabulary of the statements *)

(** The three metadata buckets of a descriptor. *)
Inductive bucket : Type :=
| DeploymentBucket
| ServiceBucket
| PodBucket.

#[global] Instance bucket_eq_dec : EqDecision bucket.
Proof. solve_decision. Defined.

(** The bucket the [if]/[else if] chain of [withLabels] and
    [withAnnotations] selects for a target, if any. *)
Definition bucketOf (t : ketchv1_Target) : option bucket :=
  if IsDeployment t then Some DeploymentBucket
  else if IsService t then Some ServiceBucket
  else if IsPod t then Some PodBucket
  else None.

Definition metadataOf (b : bucket) (p : process) : extraMetadata :=
  match b with
  | DeploymentBucket => DeploymentMetadata p
  | ServiceBucket => ServiceMetadata p
  | PodBucket => PodMetadata p
  end.

Definition labelsOf (b : bucket) (p : process) : option (gmap string string) :=
  Labels (metadataOf b p).

Definition annotationsOf (b : bucket) (p : process) : option (gmap string string) :=
  Annotations (metadataOf b p).

(** [m[k]] read from a possibly nil map. *)
Definition valueAt (m : option (gmap string string)) (k : string) : option string :=
  match m with
  | Some kvs => kvs !! k
  | None => None
  end.

(** Access to the label map, or to the annotation map, of a bucket. *)
Definition onLabels (b : bucket) (f : option (gmap string string) -> option (gmap string string))
  (p : process) : process :=
  match b with
  | DeploymentBucket => onDeploymentLabels f p
  | ServiceBucket => onServiceLabels f p
  | PodBucket => onPodLabels f p
  end.

Definition onAnnotations (b : bucket)
  (f : option (gmap string string) -> option (gmap string string)) (p : process) : process :=
  match b with
  | DeploymentBucket => onDeploymentAnnotations f p
  | ServiceBucket => onServiceAnnotations f p
  | PodBucket => onPodAnnotations f p
  end.

(** The stores of one pass over the pairs of an item, on one map. *)
Fixpoint storeAll (kvs : list (string * string)) (m : option (gmap string string))
  : option (gmap string string) :=
  match kvs with
  | [] => m
  | kv :: rest => storeAll rest (mapStore kv.1 kv.2 (makeIfNil m))
  end.

(** Merging the pairs [a] of an item into a map: nothing happens, not
    even the allocation, when the item carries no pair; otherwise the
    pairs of the item override those of the map. *)
Definition mergeApply (a : gmap string string) (m : option (gmap string string))
  : option (gmap string string) :=
  if decide (a = ∅) then m else Some (a ∪ default ∅ m).

Definition mergeItem
  (on : bucket -> (option (gmap string string) -> option (gmap string string)) ->
        process -> process)
  (item : MetadataItem) (p : process) : process :=
  match bucketOf (Target item) with
  | Some b => on b (mergeApply (Apply item)) p
  | None => p
  end.

(** [withLabels] and [withAnnotations] item by item, the inner loop
    replaced by [mergeItem]; [on] is [onLabels] or [onAnnotations]. *)
Fixpoint overlayItems
  (on : bucket -> (option (gmap string string) -> option (gmap string string)) ->
        process -> process)
  (items : list MetadataItem) (version : Z) (p : process)
  : process * list event * (unit + error) :=
  match items with
  | [] => (p, [], inl tt)
  | item :: rest =>
      if canBeApplied item (Name p) version then
        match Validate item with
        | Some err => (p, [AskValidate item], inr err)
        | None =>
            match overlayItems on rest version (mergeItem on item p) with
            | (p', t, r) => (p', AskValidate item :: t, r)
            end
        end
      else overlayItems on rest version p
  end.

(** What the proofs need to know of [onLabels] with [labelsOf], and of
    [onAnnotations] with [annotationsOf]. *)
Class BucketAccess
  (on : bucket -> (option (gmap string string) -> option (gmap string string)) ->
        process -> process)
  (view : bucket -> process -> option (gmap string string)) : Prop :=
  { view_on_same : forall b f p, view b (on b f p) = f (view b p);
    view_on_other : forall b b' f p, b <> b' -> view b' (on b f p) = view b' p;
    Name_on : forall b f p, Name (on b f p) = Name p;
    Routable_on : forall b f p, Routable (on b f p) = Routable p;
    Env_on : forall b f p, Env (on b f p) = Env p }.

(** The item passes the scoping test of the build, targets bucket [b]
    and carries key [k]. *)
Definition writesKey (b : bucket) (k : string) (processName : string) (version : Z)
  (item : MetadataItem) : Prop :=
  canBeApplied item processName version = true
  /\ bucketOf (Target item) = Some b
  /\ is_Some (Apply item !! k).

(** The item passes the scoping test only if it is valid. *)
Definition validIfApplied (processName : string) (version : Z) (item : MetadataItem) : Prop :=
  canBeApplied item processName version = true -> Validate item = None.

(** An overlay leaves the named field as it found it. *)
Definition preservesRoutable (opt : processOption) : Prop :=
  forall p, Routable (opt p).1.1 = Routable p.

Definition preservesEnv (opt : processOption) : Prop :=
  forall p, Env (opt p).1.1 = Env p.

(** *** Properties of a metadata overlay

    Stated once for an [overlay] that is [withLabels] or
    [withAnnotations], [view] being [labelsOf] or [annotationsOf]. *)

(** The last item of the list that writes a key decides its value. *)
Definition lastWriterDecides
  (overlay : list MetadataItem -> Z -> processOption)
  (view : bucket -> process -> option (gmap string string)) : Prop :=
  forall items version p p' t b before item after k value,
    overlay items version p = (p', t, inl tt) ->
    items = before ++ item :: after ->
    canBeApplied item (Name p) version = true ->
    bucketOf (Target item) = Some b ->
    Apply item !! k = Some value ->
    Forall (fun other => ~ writesKey b k (Name p) version other) after ->
    valueAt (view b p') k = Some value.

(** Of two items that write the same key of the same bucket, the later
    one decides, no item behind it writing the key again. *)
Definition laterOverridesEarlier
  (overlay : list MetadataItem -> Z -> processOption)
  (view : bucket -> process -> option (gmap string string)) : Prop :=
  forall items version p p' t b before earlier between later after k value,
    overlay items version p = (p', t, inl tt) ->
    items = before ++ earlier :: between ++ later :: after ->
    writesKey b k (Name p) version earlier ->
    canBeApplied later (Name p) version = true ->
    bucketOf (Target later) = Some b ->
    Apply later !! k = Some value ->
    Forall (fun other => ~ writesKey b k (Name p) version other) after ->
    valueAt (view b p') k = Some value.

(** A key that no item of the list writes keeps its value. *)
Definition unwrittenKeysKept
  (overlay : list MetadataItem -> Z -> processOption)
  (view : bucket -> process -> option (gmap string string)) : Prop :=
  forall items version p p' t b k,
    overlay items version p = (p', t, inl tt) ->
    Forall (fun other => ~ writesKey b k (Name p) version other) items ->
    valueAt (view b p') k = valueAt (view b p) k.

(** An item of the list whose validation is called and fails ends the
    build at once: [newProcess] returns the validation error of that
    item and no descriptor, and that validation is the last call made. *)
Definition abortsWhenValidationFails (overlay : list MetadataItem -> Z -> processOption)
  : Prop :=
  forall name isRoutable pre post items version item err p1 t1,
    applyOpts pre (newDescriptor name isRoutable) = (p1, t1, inl tt) ->
    item ∈ items ->
    AskValidate item ∈ (overlay items version p1).1.2 ->
    Validate item = Some err ->
    newProcess name isRoutable (pre ++ overlay items version :: post) = (None, Some err)
    /\ exists t,
        callsOfNewProcess name isRoutable (pre ++ overlay items version :: post)
        = t ++ [AskValidate item].

(** An item that fails the scoping test is never validated, and the
    overlay succeeds as soon as the items that pass it are valid. *)
Definition skipsBeforeValidation (overlay : list MetadataItem -> Z -> processOption) : Prop :=
  forall items version p,
    (forall item, canBeApplied item (Name p) version = false ->
                  AskValidate item ∉ (overlay items version p).1.2)
    /\ (Forall (validIfApplied (Name p) version) items ->
        (overlay items version p).2 = inl tt).

(** The port environment derivation as the specification words it: no
    entry without a container port; [port] and [PORT] for exactly one
    port; and, with at least one port, [PORT_<processName>] holding all
    ports joined by commas. *)
Definition portEnvReference (processName : string) (ports : list v1.ContainerPort.t)
  : list ketchv1.Env.t :=
  match ports with
  | [] => []
  | _ :: _ =>
      match ports with
      | [one] =>
          [ketchv1.Env.mk "port" (Sprintf_d (v1.ContainerPort.ContainerPort one));
           ketchv1.Env.mk "PORT" (Sprintf_d (v1.ContainerPort.ContainerPort one))]
      | _ => []
      end
      ++ [ketchv1.Env.mk ("PORT_" +:+ processName)
            (Join (map (fun c => Sprintf_d (v1.ContainerPort.ContainerPort c)) ports) ",")]
  end.

End Chart.

(** ** A concrete platform, for running the builder *)

Inductive sampleTarget : Type :=
| TargetDeployment
| TargetService
| TargetPod.

#[local] Instance sampleObjects : K8sObjects :=
  {| v1_SecurityContext := unit; v1_ResourceRequirements := unit;
     v1_NodeSelectorTerm := unit; v1_Volume := unit; v1_VolumeMount := unit;
     v1_Probe := string; v1_Lifecycle := unit |}.

#[local] Instance sampleApi : KetchApi :=
  {| ketchv1_Target := sampleTarget;
     IsDeployment := fun t => match t with TargetDeployment => true | _ => false end;
     IsService := fun t => match t with TargetService => true | _ => false end;
     IsPod := fun t => match t with TargetPod => true | _ => false end;
     DefaultNumberOfUnits := 1 |}.

(** A validator that checks the format of the keys, as far as rejecting
    the empty key; an item without pairs passes it. *)
#[local] Instance sampleValidator : Validator :=
  {| Validate := fun item =>
       if bool_decide (is_Some (Apply item !! ""))
       then Some (ErrForeign "malformed metadata key")
       else None |}.

Definition samplePorts : portConfigurator :=
  {| ContainerPortsForProcess := fun _ => [v1.ContainerPort.mk "http" 8080 "TCP"];
     ServicePortsForProcess := fun _ => [v1.ServicePort.mk "http" 80 "TCP"];
     Probes := inl (Probes.mk (Some "live") (Some "ready") None) |}.

Definition noPorts : portConfigurator :=
  {| ContainerPortsForProcess := fun _ => [];
     ServicePortsForProcess := fun _ => [];
     Probes := inl (Probes.mk None None None) |}.

Definition brokenProbes : portConfigurator :=
  {| ContainerPortsForProcess := fun _ => [v1.ContainerPort.mk "http" 8080 "TCP"];
     ServicePortsForProcess := fun _ => [v1.ServicePort.mk "http" 80 "TCP"];
     Probes := inr (ErrForeign "malformed probe") |}.

Definition tierItem (value : string) : MetadataItem :=
  {| Target := TargetDeployment; DeploymentVersion := 0; ProcessName := "";
     Apply := {[ "tier" := value ]} |}.

(** An item for every process whose version filter is negative. *)
Definition negativeVersionItem : MetadataItem :=
  {| Target := TargetService; DeploymentVersion := -1; ProcessName := "";
     Apply := {[ "team" := "core" ]} |}.

(** Two items with a malformed key, which the sample validator
    rejects: one for every process, one for the process [worker] only. *)
Definition malformedItem : MetadataItem :=
  {| Target := TargetPod; DeploymentVersion := 0; ProcessName := "";
     Apply := {[ "" := "x" ]} |}.

Definition workerOnlyMalformedItem : MetadataItem :=
  {| Target := TargetPod; DeploymentVersion := 0; ProcessName := "worker";
     Apply := {[ "" := "x" ]} |}.

(** Two items without pairs: one for every process, one for the
    process [worker] only. *)
Definition emptyItem : MetadataItem :=
  {| Target := TargetPod; DeploymentVersion := 0; ProcessName := ""; Apply := ∅ |}.

Definition workerOnlyEmptyItem : MetadataItem :=
  {| Target := TargetPod; DeploymentVersion := 0; ProcessName := "worker"; Apply := ∅ |}.

(** ** Calls to the overlay constructors of the package *)

Section Calls.

Context {K8s : K8sObjects} {Api : KetchApi} {Val : Validator}.

(** One call to a constructor of [processOption], with its arguments. *)
Inductive optionCall : Type :=
| CallWithUnits (units : option Z)
| CallWithEnvs (envs : list ketchv1.Env.t)
| CallWithCmd (cmd : list string)
| CallWithPortsAndProbes (c : portConfigurator)
| CallWithSecurityContext (securityContext : option v1_SecurityContext)
| CallWithLifecycle (lc : option v1_Lifecycle)
| CallWithResourceRequirements (rr : option v1_ResourceRequirements)
| CallWithVolumes (volumes : list v1_Volume)
| CallWithVolumeMounts (vm : list v1_VolumeMount)
| CallWithLabels (labels : list MetadataItem) (deploymentVersion : Z)
| CallWithAnnotations (annotations : list MetadataItem) (deploymentVersion : Z).

(** The option a call returns. *)
Definition optionOf (call : optionCall) : processOption :=
  match call with
  | CallWithUnits units => withUnits units
  | CallWithEnvs envs => withEnvs envs
  | CallWithCmd cmd => withCmd cmd
  | CallWithPortsAndProbes c => withPortsAndProbes c
  | CallWithSecurityContext securityContext => withSecurityContext securityContext
  | CallWithLifecycle lc => withLifecycle lc
  | CallWithResourceRequirements rr => withResourceRequirements rr
  | CallWithVolumes volumes => withVolumes volumes
  | CallWithVolumeMounts vm => withVolumeMounts vm
  | CallWithLabels labels deploymentVersion => withLabels labels deploymentVersion
  | CallWithAnnotations annotations deploymentVersion =>
      withAnnotations annotations deploymentVersion
  end.

(** The value a field ends with when [arg] tells, call by call, the
    value a call assigns to it, if any: that of the last call that
    assigns one, and [zero] when there is none. *)
Definition lastAssigned {A : Type} (arg : optionCall -> option A) (calls : list optionCall)
  (zero : A) : A :=
  fold_left (fun acc call => default acc (arg call)) calls zero.

Definition unitsAssigned (call : optionCall) : option Z :=
  match call with
  | CallWithUnits units => units
  | _ => None
  end.

Definition cmdAssigned (call : optionCall) : option (list string) :=
  match call with
  | CallWithCmd cmd => Some cmd
  | _ => None
  end.

Definition securityContextAssigned (call : optionCall)
  : option (option v1_SecurityContext) :=
  match call with
  | CallWithSecurityContext securityContext => Some securityContext
  | _ => None
  end.

Definition lifecycleAssigned (call : optionCall) : option (option v1_Lifecycle) :=
  match call with
  | CallWithLifecycle lc => Some lc
  | _ => None
  end.

Definition resourceRequirementsAssigned (call : optionCall)
  : option (option v1_ResourceRequirements) :=
  match call with
  | CallWithResourceRequirements rr => Some rr
  | _ => None
  end.

Definition volumesAssigned (call : optionCall) : option (list v1_Volume) :=
  match call with
  | CallWithVolumes volumes => Some volumes
  | _ => None
  end.

Definition volumeMountsAssigned (call : optionCall) : option (list v1_VolumeMount) :=
  match call with
  | CallWithVolumeMounts vm => Some vm
  | _ => None
  end.

(** The descriptor with its three metadata buckets blanked: what is
    left are the fields no metadata overlay writes. *)
Definition withoutMetadata (p : process) : process :=
  set_PodMetadata emptyMetadata
    (set_DeploymentMetadata emptyMetadata (set_ServiceMetadata emptyMetadata p)).

(** The validation calls of a metadata overlay on a list of items: one
    for each item that passes the scoping test, in the order of the
    list, up to the first item that fails its validation. *)
Fixpoint validationCalls (processName : string) (version : Z) (items : list MetadataItem)
  : list event :=
  match items with
  | [] => []
  | item :: rest =>
      if canBeApplied item processName version then
        AskValidate item ::
          match Validate item with
          | Some _ => []
          | None => validationCalls processName version rest
          end
      else validationCalls processName version rest
  end.

End Calls.

(** * Export of a framework ([cmd/ketch]) *)

(** [ketchv1.Framework] and its [Spec]: the two names the export
    touches, the rest of the specification being carried along. *)
Module FrameworkSpec.
Record t (Rest : Type) : Type := mk { Name : string; Others : Rest }.
Arguments mk {Rest}.
Arguments Name {Rest}.
Arguments Others {Rest}.
End FrameworkSpec.

Module Framework.
Record t (Rest : Type) : Type := mk { Name : string; Spec : FrameworkSpec.t Rest }.
Arguments mk {Rest}.
Arguments Name {Rest}.
Arguments Spec {Rest}.
End Framework.

(** Errors of the command: its own [errFileExists], and the errors of
    the calls it makes. *)
Inductive exportError : Type :=
| errFileExists
| ErrOfCall (msg : string).

(** What [os.Stat] reports: no error, an error for which
    [os.IsNotExist] holds, or another error. *)
Inductive statOutcome : Type :=
| StatFound
| StatNotExist
| StatFailed (msg : string).

(** The writer bytes go to: the [out] handed to the command, or the
    file it has created. *)
Inductive writer : Type :=
| GivenWriter
| CreatedFile (path : string).

Record frameworkExportOptions : Type :=
  { frameworkName : string; filename : string }.

Section ExportCommand.

(** The part of a framework specification beside its name. *)
Variable Rest : Type.

(** What the collaborators answer: the cluster client, the file system,
    the YAML encoder and the writers. [osCreate] and [writeTo] give the
    error of the call, [None] when it succeeds. *)
Record exportWorld : Type :=
  { clientGet : string -> Framework.t Rest + exportError;
    osStat : string -> statOutcome;
    osCreate : string -> option exportError;
    yamlMarshal : FrameworkSpec.t Rest -> string + exportError;
    writeTo : writer -> string -> option exportError }.

(** The calls the command makes, in the order it makes them. *)
Inductive exportEvent : Type :=
| EvGet (name : string)
| EvStat (path : string)
| EvCreate (path : string)
| EvMarshal (spec : FrameworkSpec.t Rest)
| EvWrite (out : writer) (bytes : string)
| EvClose (path : string).

(** [framework.Spec.Name = framework.Name] *)
Definition nameSpec (framework : Framework.t Rest) : Framework.t Rest :=
  Framework.mk (Framework.Name framework)
    (FrameworkSpec.mk (Framework.Name framework)
       (FrameworkSpec.Others (Framework.Spec framework))).

(** The end of [exportFramework]: encode the specification and write it
    to [out]. *)
Definition marshalAndWrite (w : exportWorld) (framework : Framework.t Rest) (out : writer)
  : list exportEvent * option exportError :=
  match yamlMarshal w (Framework.Spec framework) with
  | inr err => ([EvMarshal (Framework.Spec framework)], Some err)
  | inl b => ([EvMarshal (Framework.Spec framework); EvWrite out b], writeTo w out b)
  end.

(** [exportFramework]: the calls made and the error returned. The
    deferred [f.Close()] runs when the function returns, on every path
    behind a successful [os.Create]. *)
Definition exportFramework (w : exportWorld) (options : frameworkExportOptions)
  : list exportEvent * option exportError :=
  match clientGet w (frameworkName options) with
  | inr err => ([EvGet (frameworkName options)], Some err)
  | inl framework =>
      let framework := nameSpec framework in
      if bool_decide (filename options ≠ "") then
        match osStat w (filename options) with
        | StatNotExist =>
            match osCreate w (filename options) with
            | Some err =>
                ([EvGet (frameworkName options); EvStat (filename options);
                  EvCreate (filename options)], Some err)
            | None =>
                match marshalAndWrite w framework (CreatedFile (filename options)) with
                | (t, r) =>
                    ([EvGet (frameworkName options); EvStat (filename options);
                      EvCreate (filename options)] ++ t ++ [EvClose (filename options)], r)
                end
            end
        | _ =>
            ([EvGet (frameworkName options); EvStat (filename options)],
             Some errFileExists)
        end
      else
        match marshalAndWrite w framework GivenWriter with
        | (t, r) => (EvGet (frameworkName options) :: t, r)
        end
  end.

(** The writes of a trace, in the order they are made: the writer and
    the bytes of each. *)
Fixpoint writesOf (t : list exportEvent) : list (writer * string) :=
  match t with
  | [] => []
  | EvWrite out b :: rest => (out, b) :: writesOf rest
  | _ :: rest => writesOf rest
  end.

(** The file at [path] has been created and nothing written to it. *)
Definition leavesEmptyFile (path : string) (t : list exportEvent) : Prop :=
  EvCreate path ∈ t /\ forall b, EvWrite (CreatedFile path) b ∉ t.

End ExportCommand.

Arguments clientGet {Rest}.
Arguments osStat {Rest}.
Arguments osCreate {Rest}.
Arguments yamlMarshal {Rest}.
Arguments writeTo {Rest}.
Arguments EvGet {Rest}.
Arguments EvStat {Rest}.
Arguments EvCreate {Rest}.
Arguments EvMarshal {Rest}.
Arguments EvWrite {Rest}.
Arguments EvClose {Rest}.
Arguments nameSpec {Rest}.
Arguments marshalAndWrite {Rest}.
Arguments exportFramework {Rest}.
Arguments writesOf {Rest}.
Arguments leavesEmptyFile {Rest}.

(** ** A sample world for the export *)

Definition sampleFramework : Framework.t nat :=
  Framework.mk "prod" (FrameworkSpec.mk "" 3%nat).

(** A cluster that knows the framework [prod], a file system in which
    only [taken.yaml] exists, and an encoder and writers that succeed. *)
Definition sampleWorld : exportWorld nat :=
  {| clientGet := fun name =>
       if bool_decide (name = "prod") then inl sampleFramework
       else inr (ErrOfCall "not found");
     osStat := fun path =>
       if bool_decide (path = "taken.yaml") then StatFound else StatNotExist;
     osCreate := fun _ => None;
     yamlMarshal := fun spec => inl ("name: " +:+ FrameworkSpec.Name spec);
     writeTo := fun _ _ => None |}.

(** The same world with an encoder that fails. *)
Definition brokenEncoderWorld : exportWorld nat :=
  {| clientGet := clientGet sampleWorld;
     osStat := osStat sampleWorld;
     osCreate := osCreate sampleWorld;
     yamlMarshal := fun _ => inr (ErrOfCall "cannot encode");
     writeTo := writeTo sampleWorld |}.

(** * Properties of the builder *)

Section Properties.

Context {K8s : K8sObjects} {Api : KetchApi} {Val : Validator}.

Notation "x <- c1 ;; c2" := (bind c1 (fun x => c2))
  (at level 100, c1 at next level, right associativity).
Notation "c1 ;; c2" := (bind c1 (fun _ => c2))
  (at level 100, right associativity).

(** ** Running the loop over the options *)

Lemma applyOpts_app (pre post : list processOption) (p : process) :
  applyOpts (pre ++ post) p = bind (applyOpts pre) (fun _ => applyOpts post) p.
Proof.
  revert p. induction pre as [|opt pre IH]; intros p; simpl.
  - unfold bind, ret. by destruct (applyOpts post p) as [[p2 t2] r].
  - unfold bind in *. destruct (opt p) as [[p1 t1] [[]|e]]; [|done].
    rewrite IH. destruct (applyOpts pre p1) as [[p2 t2] [[]|e]]; [|done].
    destruct (applyOpts post p2) as [[p3 t3] r]. by rewrite app_assoc.
Qed.

(** The loop stops at the first option that returns an error: the
    options behind it contribute neither a mutation nor a call. *)
Lemma applyOpts_stops (pre post : list processOption) (opt : processOption)
    (p p1 p2 : process) (t1 t2 : list event) (err : error) :
  applyOpts pre p = (p1, t1, inl tt) ->
  opt p1 = (p2, t2, inr err) ->
  applyOpts (pre ++ opt :: post) p = (p2, t1 ++ t2, inr err).
Proof.
  intros Hpre Hopt. rewrite applyOpts_app. unfold bind. rewrite Hpre. simpl.
  unfold bind. by rewrite Hopt.
Qed.

(** Options that all succeed are applied one after the other, each to
    the descriptor left by the one before it. *)
Lemma applyOpts_in_order (opts : list processOption) (p p' : process) (t : list event) :
  applyOpts opts p = (p', t, inl tt) ->
  p' = fold_left (fun q opt => (opt q).1.1) opts p.
Proof.
  revert p t. induction opts as [|opt opts IH]; intros p t; simpl.
  - unfold ret. by intros [= <- <-].
  - unfold bind. destruct (opt p) as [[p1 t1] [[]|e]] eqn:E; [|done]. simpl.
    destruct (applyOpts opts p1) as [[p2 t2] r] eqn:E2. intros [= <- <- ->].
    by apply IH in E2.
Qed.

Lemma applyOpts_preserves_Routable (opts : list processOption) (p : process) :
  Forall preservesRoutable opts -> Routable (applyOpts opts p).1.1 = Routable p.
Proof.
  intros Hall. revert p. induction Hall as [|opt opts Hopt Hall IH]; intros p; simpl; [done|].
  unfold bind. specialize (Hopt p). destruct (opt p) as [[p1 t1] [[]|e]]; simpl in *; [|done].
  specialize (IH p1). destruct (applyOpts opts p1) as [[p2 t2] r]. simpl in *. congruence.
Qed.

Lemma applyOpts_preserves_Env (opts : list processOption) (p : process) :
  Forall preservesEnv opts -> Env (applyOpts opts p).1.1 = Env p.
Proof.
  intros Hall. revert p. induction Hall as [|opt opts Hopt Hall IH]; intros p; simpl; [done|].
  unfold bind. specialize (Hopt p). destruct (opt p) as [[p1 t1] [[]|e]]; simpl in *; [|done].
  specialize (IH p1). destruct (applyOpts opts p1) as [[p2 t2] r]. simpl in *. congruence.
Qed.

(** ** The end of [newProcess] *)

Lemma hasOpenPort_false (p : process) :
  hasOpenPort p = false <-> ContainerPorts p = [] \/ ServicePorts p = [].
Proof.
  unfold hasOpenPort. destruct (ContainerPorts p), (ServicePorts p); simpl;
    split; intros H; auto; try discriminate; by destruct H.
Qed.

Lemma portEnvVariables_set_Env (envs : list ketchv1.Env.t) (p : process) :
  portEnvVariables (set_Env envs p) = portEnvVariables p.
Proof. reflexivity. Qed.

(** What [newProcess] returns once every option has succeeded. *)
Lemma newProcess_after_options (name : string) (isRoutable : bool)
    (opts : list processOption) (p' : process) (t : list event) :
  applyOpts opts (newDescriptor name isRoutable) = (p', t, inl tt) ->
  newProcess name isRoutable opts =
    if negb (Routable p') then (Some (set_Env (Env p' ++ portEnvVariables p') p'), None)
    else if negb (hasOpenPort p') then (None, Some ErrPortsNotFound)
    else (Some (set_Env (Env p' ++ portEnvVariables p') p'), None).
Proof.
  intros H. unfold newProcess, runNewProcess, bind. rewrite H.
  unfold finish, bind, get, modify, ret, throw. simpl.
  change (hasOpenPort (set_Env _ p')) with (hasOpenPort p').
  by destruct (Routable p'), (hasOpenPort p').
Qed.

(** What [newProcess] returns when an option has failed. *)
Lemma newProcess_failed_option (name : string) (isRoutable : bool)
    (opts : list processOption) (p' : process) (t : list event) (err : error) :
  applyOpts opts (newDescriptor name isRoutable) = (p', t, inr err) ->
  newProcess name isRoutable opts = (None, Some err)
  /\ callsOfNewProcess name isRoutable opts = t.
Proof.
  intros H. unfold callsOfNewProcess, newProcess, runNewProcess, bind. by rewrite H.
Qed.


(** ** The inner loop of the metadata overlays *)

Lemma storeAll_Some (kvs : list (string * string)) (m : gmap string string) :
  storeAll kvs (Some m) = Some (fold_left (fun acc kv => <[kv.1:=kv.2]> acc) kvs m).
Proof. revert m. induction kvs as [|kv kvs IH]; intros m; simpl; [done|]. by rewrite IH. Qed.

Lemma fold_left_insert_union (kvs : list (string * string)) (m : gmap string string) :
  NoDup kvs.*1 ->
  fold_left (fun acc kv => <[kv.1:=kv.2]> acc) kvs m = list_to_map kvs ∪ m.
Proof.
  revert m. induction kvs as [|[k v] kvs IH]; intros m; simpl.
  - intros _. by rewrite (left_id_L ∅ (∪)).
  - intros [Hk Hnd]%NoDup_cons. rewrite IH by done. simpl.
    rewrite <- insert_union_l. symmetry. apply insert_union_r.
    by apply not_elem_of_list_to_map_1.
Qed.

Lemma storeAll_map_to_list (a : gmap string string) (m : option (gmap string string)) :
  storeAll (map_to_list a) m = mergeApply a m.
Proof.
  unfold mergeApply. destruct (decide (a = ∅)) as [->|Hne].
  - by rewrite map_to_list_empty.
  - destruct (map_to_list a) as [|kv kvs] eqn:E.
    { by apply map_to_list_empty_iff in E. }
    assert (S : storeAll (kv :: kvs) m = storeAll (kv :: kvs) (Some (default ∅ m))).
    { by destruct m. }
    rewrite S, storeAll_Some, <- E, fold_left_insert_union by apply NoDup_fst_map_to_list.
    by rewrite list_to_map_to_list.
Qed.

Section InnerLoop.

(** [on] is one of the six access paths to a map of the descriptor. *)
Variable on : (option (gmap string string) -> option (gmap string string)) ->
              process -> process.
Hypothesis on_on : forall f g p, on f (on g p) = on (fun m => f (g m)) p.
Hypothesis on_same : forall p, on (fun m => m) p = p.

Lemma forEach_stores (kvs : list (string * string)) (p : process) :
  forEach kvs (fun kv => modify (on makeIfNil) ;; modify (on (mapStore kv.1 kv.2))) p
  = (on (storeAll kvs) p, [], inl tt).
Proof using on_on on_same.
  revert p. induction kvs as [|kv kvs IH]; intros p; simpl.
  - by rewrite on_same.
  - unfold bind at 1. unfold bind at 1. unfold modify at 1 2. simpl.
    rewrite IH. by rewrite !on_on.
Qed.

End InnerLoop.

Lemma process_eta (p : process) :
  {| Name := Name p; Cmd := Cmd p; Units := Units p; Routable := Routable p;
     ContainerPorts := ContainerPorts p; ServicePorts := ServicePorts p;
     PublicServicePort := PublicServicePort p; Env := Env p;
     SecurityContext := SecurityContext p; ResourceRequirements := ResourceRequirements p;
     NodeSelectorTerms := NodeSelectorTerms p; Volumes := Volumes p;
     VolumeMounts := VolumeMounts p; ReadinessProbe := ReadinessProbe p;
     LivenessProbe := LivenessProbe p; StartupProbe := StartupProbe p;
     Lifecycle := Lifecycle p; ServiceMetadata := ServiceMetadata p;
     DeploymentMetadata := DeploymentMetadata p; PodMetadata := PodMetadata p |} = p.
Proof. by destruct p. Qed.

Ltac access_same :=
  let p := fresh "p" in
  intros p; destruct p as [? ? ? ? ? ? ? ? ? ? ? ? ? ? ? ? ? [? ?] [? ?] [? ?]]; reflexivity.

Lemma forEach_item_pairs_labels (item : MetadataItem) (p : process) :
  forEach (map_to_list (Apply item)) (fun kv =>
    if IsDeployment (Target item) then
      modify (onDeploymentLabels makeIfNil) ;;
      modify (onDeploymentLabels (mapStore kv.1 kv.2))
    else if IsService (Target item) then
      modify (onServiceLabels makeIfNil) ;;
      modify (onServiceLabels (mapStore kv.1 kv.2))
    else if IsPod (Target item) then
      modify (onPodLabels makeIfNil) ;;
      modify (onPodLabels (mapStore kv.1 kv.2))
    else ret tt) p
  = (mergeItem onLabels item p, [], inl tt).
Proof.
  unfold mergeItem, bucketOf.
  destruct (IsDeployment (Target item)); [|destruct (IsService (Target item));
    [|destruct (IsPod (Target item))]]; simpl.
  - rewrite forEach_stores; [|done|access_same].
    unfold onDeploymentLabels. by rewrite storeAll_map_to_list.
  - rewrite forEach_stores; [|done|access_same].
    unfold onServiceLabels. by rewrite storeAll_map_to_list.
  - rewrite forEach_stores; [|done|access_same].
    unfold onPodLabels. by rewrite storeAll_map_to_list.
  - induction (map_to_list (Apply item)) as [|kv kvs IH]; simpl; [done|].
    unfold bind, ret at 1. simpl. by rewrite IH.
Qed.

Lemma forEach_item_pairs_annotations (item : MetadataItem) (p : process) :
  forEach (map_to_list (Apply item)) (fun kv =>
    if IsDeployment (Target item) then
      modify (onDeploymentAnnotations makeIfNil) ;;
      modify (onDeploymentAnnotations (mapStore kv.1 kv.2))
    else if IsService (Target item) then
      modify (onServiceAnnotations makeIfNil) ;;
      modify (onServiceAnnotations (mapStore kv.1 kv.2))
    else if IsPod (Target item) then
      modify (onPodAnnotations makeIfNil) ;;
      modify (onPodAnnotations (mapStore kv.1 kv.2))
    else ret tt) p
  = (mergeItem onAnnotations item p, [], inl tt).
Proof.
  unfold mergeItem, bucketOf.
  destruct (IsDeployment (Target item)); [|destruct (IsService (Target item));
    [|destruct (IsPod (Target item))]]; simpl.
  - rewrite forEach_stores; [|done|access_same].
    unfold onDeploymentAnnotations. by rewrite storeAll_map_to_list.
  - rewrite forEach_stores; [|done|access_same].
    unfold onServiceAnnotations. by rewrite storeAll_map_to_list.
  - rewrite forEach_stores; [|done|access_same].
    unfold onPodAnnotations. by rewrite storeAll_map_to_list.
  - induction (map_to_list (Apply item)) as [|kv kvs IH]; simpl; [done|].
    unfold bind, ret at 1. simpl. by rewrite IH.
Qed.

(** [withLabels] and [withAnnotations] are [overlayItems]. *)
Lemma withLabels_overlayItems (labels : list MetadataItem) (version : Z) (p : process) :
  withLabels labels version p = overlayItems onLabels labels version p.
Proof.
  revert p. induction labels as [|label rest IH]; intros p; [done|].
  unfold withLabels in *. simpl.
  unfold bind at 1. unfold bind at 1. unfold get at 1. simpl.
  destruct (canBeApplied label (Name p) version); simpl.
  - unfold callValidate. unfold bind at 1 2. unfold emit. simpl.
    destruct (Validate label) as [err|]; simpl; [done|].
    rewrite forEach_item_pairs_labels. simpl. rewrite IH.
    by destruct (overlayItems onLabels rest version _) as [[p2 t2] r].
  - rewrite IH. by destruct (overlayItems onLabels rest version p) as [[p2 t2] r].
Qed.

Lemma withAnnotations_overlayItems (annotations : list MetadataItem) (version : Z)
    (p : process) :
  withAnnotations annotations version p = overlayItems onAnnotations annotations version p.
Proof.
  revert p. induction annotations as [|annotation rest IH]; intros p; [done|].
  unfold withAnnotations in *. simpl.
  unfold bind at 1. unfold bind at 1. unfold get at 1. simpl.
  destruct (canBeApplied annotation (Name p) version); simpl.
  - unfold callValidate. unfold bind at 1 2. unfold emit. simpl.
    destruct (Validate annotation) as [err|]; simpl; [done|].
    rewrite forEach_item_pairs_annotations. simpl. rewrite IH.
    by destruct (overlayItems onAnnotations rest version _) as [[p2 t2] r].
  - rewrite IH. by destruct (overlayItems onAnnotations rest version p) as [[p2 t2] r].
Qed.

#[local] Instance labels_access : BucketAccess onLabels labelsOf.
Proof. split; intros; repeat match goal with b : bucket |- _ => destruct b end; done. Qed.

#[local] Instance annotations_access : BucketAccess onAnnotations annotationsOf.
Proof. split; intros; repeat match goal with b : bucket |- _ => destruct b end; done. Qed.


(** ** The metadata overlays, item by item *)

Lemma valueAt_mergeApply_hit (a : gmap string string) (m : option (gmap string string))
    (k value : string) :
  a !! k = Some value -> valueAt (mergeApply a m) k = Some value.
Proof.
  intros Hk. unfold mergeApply. destruct (decide (a = ∅)) as [->|_].
  - by rewrite lookup_empty in Hk.
  - simpl. by apply lookup_union_Some_l.
Qed.

Lemma valueAt_mergeApply_miss (a : gmap string string) (m : option (gmap string string))
    (k : string) :
  a !! k = None -> valueAt (mergeApply a m) k = valueAt m k.
Proof.
  intros Hk. unfold mergeApply. destruct (decide (a = ∅)) as [_|_]; [done|].
  simpl. rewrite lookup_union_r by done. by destruct m.
Qed.

Section OverlayFacts.

Context
  {on : bucket -> (option (gmap string string) -> option (gmap string string)) ->
        process -> process}
  {view : bucket -> process -> option (gmap string string)}
  {access : BucketAccess on view}.

Lemma Name_mergeItem (item : MetadataItem) (p : process) :
  Name (mergeItem on item p) = Name p.
Proof. unfold mergeItem. destruct (bucketOf (Target item)); [apply Name_on|done]. Qed.

Lemma Routable_mergeItem (item : MetadataItem) (p : process) :
  Routable (mergeItem on item p) = Routable p.
Proof. unfold mergeItem. destruct (bucketOf (Target item)); [apply Routable_on|done]. Qed.

Lemma Env_mergeItem (item : MetadataItem) (p : process) :
  Env (mergeItem on item p) = Env p.
Proof. unfold mergeItem. destruct (bucketOf (Target item)); [apply Env_on|done]. Qed.

(** Case analysis on the first item of the list. *)
Ltac first_item item p version :=
  simpl;
  destruct (canBeApplied item (Name p) version) eqn:?;
  [destruct (Validate item) as [?|] eqn:?;
   [|destruct (overlayItems on _ version (mergeItem on item p)) as [[? ?] ?] eqn:?]|].

Lemma overlayItems_frame (items : list MetadataItem) (version : Z) (p : process) :
  Name (overlayItems on items version p).1.1 = Name p
  /\ Routable (overlayItems on items version p).1.1 = Routable p
  /\ Env (overlayItems on items version p).1.1 = Env p.
Proof.
  revert p. induction items as [|item rest IH]; intros p; [done|].
  first_item item p version; simpl; [done| |apply IH].
  specialize (IH (mergeItem on item p)).
  rewrite Name_mergeItem, Routable_mergeItem, Env_mergeItem in IH.
  match goal with H : overlayItems _ _ _ _ = _ |- _ => by rewrite H in IH end.
Qed.

Lemma valueAt_mergeItem_unwritten (item : MetadataItem) (p : process) (b : bucket)
    (k : string) (version : Z) :
  canBeApplied item (Name p) version = true ->
  ~ writesKey b k (Name p) version item ->
  valueAt (view b (mergeItem on item p)) k = valueAt (view b p) k.
Proof.
  intros Happ Hnot. unfold mergeItem.
  destruct (bucketOf (Target item)) as [b'|] eqn:Hb; [|done].
  destruct (decide (b' = b)) as [->|Hne].
  - rewrite view_on_same. apply valueAt_mergeApply_miss.
    destruct (Apply item !! k) eqn:Hk; [|done].
    exfalso. apply Hnot. by repeat split.
  - by rewrite view_on_other.
Qed.

Lemma overlayItems_unwritten (items : list MetadataItem) (version : Z)
    (p p' : process) (t : list event) (b : bucket) (k : string) :
  overlayItems on items version p = (p', t, inl tt) ->
  Forall (fun other => ~ writesKey b k (Name p) version other) items ->
  valueAt (view b p') k = valueAt (view b p) k.
Proof.
  revert p t. induction items as [|item rest IH]; intros p t.
  - by intros [= <- _].
  - intros Hrun [Hitem Hrest]%Forall_cons. revert Hrun.
    first_item item p version; intros Hrun; simplify_eq.
    + erewrite IH; [by eapply valueAt_mergeItem_unwritten|done|].
      by rewrite Name_mergeItem.
    + by eapply IH.
Qed.

Lemma overlayItems_last_writer (items : list MetadataItem) (version : Z)
    (p p' : process) (t : list event) (b : bucket)
    (before after : list MetadataItem) (item : MetadataItem) (k value : string) :
  overlayItems on items version p = (p', t, inl tt) ->
  items = before ++ item :: after ->
  canBeApplied item (Name p) version = true ->
  bucketOf (Target item) = Some b ->
  Apply item !! k = Some value ->
  Forall (fun other => ~ writesKey b k (Name p) version other) after ->
  valueAt (view b p') k = Some value.
Proof.
  intros Hrun -> Happ Hb Hk Hafter. revert p t Hrun Happ Hafter.
  induction before as [|x before IH]; intros p t Hrun Happ Hafter.
  - revert Hrun. simpl. rewrite Happ.
    destruct (Validate item) as [?|]; [done|].
    destruct (overlayItems on after version (mergeItem on item p)) as [[p2 t2] r] eqn:E.
    intros [= <- _ ->].
    erewrite overlayItems_unwritten; [| exact E | by rewrite Name_mergeItem].
    unfold mergeItem. rewrite Hb, view_on_same. by apply valueAt_mergeApply_hit.
  - revert Hrun. simpl (_ ++ _). first_item x p version; intros Hrun; simplify_eq.
    + eapply IH; [done| |]; by rewrite Name_mergeItem.
    + by eapply IH.
Qed.

Lemma overlayItems_failed_validation (items : list MetadataItem) (item : MetadataItem)
    (version : Z) (p : process) (err : error) :
  AskValidate item ∈ (overlayItems on items version p).1.2 ->
  Validate item = Some err ->
  exists p' t,
    overlayItems on items version p = (p', t ++ [AskValidate item], inr err).
Proof.
  intros Hcalled Herr. revert p Hcalled.
  induction items as [|x rest IH]; intros p Hcalled.
  - by apply elem_of_nil in Hcalled.
  - revert Hcalled. first_item x p version; simpl; intros Hcalled.
    + apply list_elem_of_singleton in Hcalled. simplify_eq. by exists p, [].
    + match goal with
      | H : overlayItems on rest version (mergeItem on x p) = _ |- _ => rename H into Hq
      end.
      apply elem_of_cons in Hcalled as [Hx|Hrest]; [simplify_eq|].
      destruct (IH (mergeItem on x p)) as (p' & t & Hrun); [by rewrite Hq|].
      rewrite Hq in Hrun. simplify_eq. by exists p', (AskValidate x :: t).
    + by apply IH.
Qed.

Lemma overlayItems_skipped_not_validated (items : list MetadataItem) (version : Z)
    (p : process) (item : MetadataItem) :
  canBeApplied item (Name p) version = false ->
  AskValidate item ∉ (overlayItems on items version p).1.2.
Proof.
  intros Hskip. revert p Hskip.
  induction items as [|x rest IH]; intros p Hskip; [apply not_elem_of_nil|].
  first_item x p version; simpl.
  - apply not_elem_of_cons. split; [congruence|apply not_elem_of_nil].
  - specialize (IH (mergeItem on x p)). rewrite Name_mergeItem in IH.
    match goal with H : overlayItems _ _ _ _ = _ |- _ => rewrite H in IH end.
    apply not_elem_of_cons. split; [congruence|by apply IH].
  - by apply IH.
Qed.

Lemma overlayItems_succeeds (items : list MetadataItem) (version : Z) (p : process) :
  Forall (validIfApplied (Name p) version) items ->
  (overlayItems on items version p).2 = inl tt.
Proof.
  revert p. induction items as [|x rest IH]; intros p Hvalid; [done|].
  apply Forall_cons in Hvalid as [Hx Hvalid].
  first_item x p version; simpl.
  - by rewrite Hx in *.
  - specialize (IH (mergeItem on x p)). rewrite Name_mergeItem in IH.
    match goal with H : overlayItems _ _ _ _ = _ |- _ => rewrite H in IH end.
    by apply IH.
  - by apply IH.
Qed.

End OverlayFacts.


(** ** The overlays of the package and the fields they leave alone *)

Lemma withLabels_frame (labels : list MetadataItem) (version : Z) (p : process) :
  Name (withLabels labels version p).1.1 = Name p
  /\ Routable (withLabels labels version p).1.1 = Routable p
  /\ Env (withLabels labels version p).1.1 = Env p.
Proof. rewrite withLabels_overlayItems. apply overlayItems_frame. Qed.

Lemma withAnnotations_frame (annotations : list MetadataItem) (version : Z) (p : process) :
  Name (withAnnotations annotations version p).1.1 = Name p
  /\ Routable (withAnnotations annotations version p).1.1 = Routable p
  /\ Env (withAnnotations annotations version p).1.1 = Env p.
Proof. rewrite withAnnotations_overlayItems. apply overlayItems_frame. Qed.

(** The closed form of [withPortsAndProbes]. *)
Lemma withPortsAndProbes_run (c : portConfigurator) (p : process) :
  withPortsAndProbes c p =
    let sps := ServicePortsForProcess c (Name p) in
    let cps := ContainerPortsForProcess c (Name p) in
    let p1 := set_ContainerPorts cps (set_ServicePorts sps p) in
    let asked := [AskServicePorts (Name p); AskContainerPorts (Name p)] in
    match cps, sps with
    | _ :: _, sp0 :: _ =>
        match Probes c with
        | inl probes =>
            (set_StartupProbe (Probes.StartupProbe probes)
               (set_ReadinessProbe (Probes.Readiness probes)
                  (set_LivenessProbe (Probes.Liveness probes)
                     (set_PublicServicePort (v1.ServicePort.Port sp0) p1))),
             asked ++ [AskProbes], inl tt)
        | inr err => (p1, asked ++ [AskProbes], inr err)
        end
    | _, _ => (p1, asked, inl tt)
    end.
Proof.
  unfold withPortsAndProbes, callServicePorts, callContainerPorts, callProbes.
  unfold bind, get, emit, modify, ret, throw. simpl.
  destruct (ContainerPortsForProcess c (Name p)) as [|cp0 cps];
    destruct (ServicePortsForProcess c (Name p)) as [|sp0 sps]; simpl; try done.
  by destruct (Probes c) as [probes|err].
Qed.

(** Every overlay of the package leaves [Routable] as it is. *)
Lemma package_options_preserve_Routable :
  (forall units, preservesRoutable (withUnits units))
  /\ (forall envs, preservesRoutable (withEnvs envs))
  /\ (forall cmd, preservesRoutable (withCmd cmd))
  /\ (forall c, preservesRoutable (withPortsAndProbes c))
  /\ (forall sc, preservesRoutable (withSecurityContext sc))
  /\ (forall lc, preservesRoutable (withLifecycle lc))
  /\ (forall rr, preservesRoutable (withResourceRequirements rr))
  /\ (forall volumes, preservesRoutable (withVolumes volumes))
  /\ (forall vm, preservesRoutable (withVolumeMounts vm))
  /\ (forall labels version, preservesRoutable (withLabels labels version))
  /\ (forall annotations version, preservesRoutable (withAnnotations annotations version)).
Proof.
  repeat split; try (intros ? p; reflexivity).
  - intros [u|] p; reflexivity.
  - intros c p. rewrite withPortsAndProbes_run. simpl.
    destruct (ContainerPortsForProcess c (Name p)), (ServicePortsForProcess c (Name p));
      try done. by destruct (Probes c).
  - intros labels version p. apply withLabels_frame.
  - intros annotations version p. apply withAnnotations_frame.
Qed.

(** Every overlay of the package but [withEnvs] leaves [Env] as it is. *)
Lemma package_options_preserve_Env :
  (forall units, preservesEnv (withUnits units))
  /\ (forall cmd, preservesEnv (withCmd cmd))
  /\ (forall c, preservesEnv (withPortsAndProbes c))
  /\ (forall sc, preservesEnv (withSecurityContext sc))
  /\ (forall lc, preservesEnv (withLifecycle lc))
  /\ (forall rr, preservesEnv (withResourceRequirements rr))
  /\ (forall volumes, preservesEnv (withVolumes volumes))
  /\ (forall vm, preservesEnv (withVolumeMounts vm))
  /\ (forall labels version, preservesEnv (withLabels labels version))
  /\ (forall annotations version, preservesEnv (withAnnotations annotations version)).
Proof.
  repeat split; try (intros ? p; reflexivity).
  - intros [u|] p; reflexivity.
  - intros c p. rewrite withPortsAndProbes_run. simpl.
    destruct (ContainerPortsForProcess c (Name p)), (ServicePortsForProcess c (Name p));
      try done. by destruct (Probes c).
  - intros labels version p. apply withLabels_frame.
  - intros annotations version p. apply withAnnotations_frame.
Qed.

(** ** The properties of the builder *)

(** C1. Once every overlay has succeeded, a routable descriptor that
    lacks container ports or service ports makes the build fail with
    [ErrPortsNotFound] and no descriptor, while a descriptor that is not
    routable is returned without any look at its ports. This holds for
    the flag as the descriptor carries it and, the overlays leaving that
    field alone (as all overlays of the package do), for the flag as it
    was handed to the builder. *)
Theorem newProcess_checks_ports_of_routable_only
    (name : string) (isRoutable : bool) (opts : list processOption)
    (p' : process) (t : list event) :
  applyOpts opts (newDescriptor name isRoutable) = (p', t, inl tt) ->
  ((Routable p' = true -> ContainerPorts p' = [] \/ ServicePorts p' = [] ->
    newProcess name isRoutable opts = (None, Some ErrPortsNotFound))
   /\ (Routable p' = false ->
       newProcess name isRoutable opts
       = (Some (set_Env (Env p' ++ portEnvVariables p') p'), None)))
  /\ (Forall preservesRoutable opts ->
      (isRoutable = true -> ContainerPorts p' = [] \/ ServicePorts p' = [] ->
       newProcess name isRoutable opts = (None, Some ErrPortsNotFound))
      /\ (isRoutable = false ->
          newProcess name isRoutable opts
          = (Some (set_Env (Env p' ++ portEnvVariables p') p'), None))).
Proof.
  intros Hrun.
  assert (A : (Routable p' = true -> ContainerPorts p' = [] \/ ServicePorts p' = [] ->
               newProcess name isRoutable opts = (None, Some ErrPortsNotFound))
              /\ (Routable p' = false ->
                  newProcess name isRoutable opts
                  = (Some (set_Env (Env p' ++ portEnvVariables p') p'), None))).
  { rewrite (newProcess_after_options _ _ _ _ _ Hrun). split.
    - intros -> Hports%hasOpenPort_false. by rewrite Hports.
    - by intros ->. }
  split; [exact A|]. intros Hkeep.
  assert (R : Routable p' = isRoutable).
  { pose proof (applyOpts_preserves_Routable opts (newDescriptor name isRoutable) Hkeep) as R.
    by rewrite Hrun in R. }
  rewrite R in A. exact A.
Qed.

(** C2. The derived port environment variables are those of the
    reference definition [portEnvReference]: nothing without a container
    port, [port] and [PORT] for exactly one port, and [PORT_<name>] with
    the comma-joined decimal ports whenever there is a port. For the
    ports 80 and 443 of process [web] the only entry is
    [PORT_web=80,443]. *)
Theorem portEnvVariables_is_reference :
  (forall p : process, portEnvVariables p = portEnvReference (Name p) (ContainerPorts p))
  /\ (forall p : process,
        Name p = "web" ->
        map v1.ContainerPort.ContainerPort (ContainerPorts p) = [80; 443] ->
        portEnvVariables p = [ketchv1.Env.mk "PORT_web" "80,443"]).
Proof.
  assert (A : forall p : process,
             portEnvVariables p = portEnvReference (Name p) (ContainerPorts p)).
  { intros p. unfold portEnvVariables, portEnvReference.
    destruct (ContainerPorts p) as [|cp0 [|cp1 cps]]; reflexivity. }
  split; [exact A|]. intros p Hname Hports. rewrite A, Hname.
  destruct (ContainerPorts p) as [|[n0 c0 q0] [|[n1 c1 q1] [|cp2 cps]]]; simplify_eq/=.
  reflexivity.
Qed.

(** C3. The overlays run in the order of the list: the descriptor an
    overlay receives is the one the overlays before it have left, one
    after the other. The first overlay that returns an error ends the
    build, which returns that error and no descriptor; whatever follows
    the failing overlay in the list changes neither the result nor the
    calls made, so none of it is invoked. *)
Theorem newProcess_stops_at_first_failure
    (name : string) (isRoutable : bool) (pre post : list processOption)
    (opt : processOption) (p1 p2 : process) (t1 t2 : list event) (err : error) :
  applyOpts pre (newDescriptor name isRoutable) = (p1, t1, inl tt) ->
  opt p1 = (p2, t2, inr err) ->
  p1 = fold_left (fun q o => (o q).1.1) pre (newDescriptor name isRoutable)
  /\ newProcess name isRoutable (pre ++ opt :: post) = (None, Some err)
  /\ callsOfNewProcess name isRoutable (pre ++ opt :: post) = t1 ++ t2.
Proof.
  intros Hpre Hopt. split; [by eapply applyOpts_in_order|].
  eapply newProcess_failed_option, applyOpts_stops; eauto.
Qed.

(** C6. The environment of a returned descriptor is the environment the
    overlays have configured, followed by the derived port entries; the
    rest of the descriptor is as the overlays left it. With [withEnvs]
    the last overlay to write the environment, the list is the entries
    given to it, in their order, followed by the derived ones. *)
Theorem newProcess_appends_port_env
    (name : string) (isRoutable : bool) (opts : list processOption) (d : process) :
  newProcess name isRoutable opts = (Some d, None) ->
  exists p' t,
    applyOpts opts (newDescriptor name isRoutable) = (p', t, inl tt)
    /\ d = set_Env (Env p' ++ portEnvVariables p') p'
    /\ Env d = Env p' ++ portEnvVariables p'
    /\ (forall pre envs post,
          opts = pre ++ withEnvs envs :: post ->
          Forall preservesEnv post ->
          Env d = envs ++ portEnvVariables p').
Proof.
  intros Hnew.
  destruct (applyOpts opts (newDescriptor name isRoutable)) as [[p' t] [[]|err]] eqn:Hrun.
  - exists p', t. split; [done|].
    rewrite (newProcess_after_options _ _ _ _ _ Hrun) in Hnew.
    assert (Hd : d = set_Env (Env p' ++ portEnvVariables p') p').
    { destruct (Routable p'), (hasOpenPort p'); simpl in Hnew; congruence. }
    split; [exact Hd|]. split; [by rewrite Hd|].
    intros pre envs post -> Hpost. rewrite Hd. simpl. f_equal.
    rewrite applyOpts_app in Hrun. unfold bind in Hrun.
    destruct (applyOpts pre (newDescriptor name isRoutable)) as [[q tq] [[]|e]];
      [|done]. simpl in Hrun. unfold bind, withEnvs, modify in Hrun. simpl in Hrun.
    pose proof (applyOpts_preserves_Env post (set_Env envs q) Hpost) as HE.
    destruct (applyOpts post (set_Env envs q)) as [[q2 t2] r2]. simpl in HE.
    by simplify_eq.
  - destruct (newProcess_failed_option _ _ _ _ _ _ Hrun) as [Hfail _]. congruence.
Qed.


Lemma canBeApplied_true (item : MetadataItem) (processName : string) (version : Z) :
  canBeApplied item processName version = true
  <-> (DeploymentVersion item <= 0 \/ DeploymentVersion item = version)
      /\ (ProcessName item = "" \/ ProcessName item = processName).
Proof.
  assert (S : (if bool_decide (ProcessName item ≠ "")
                  && bool_decide (processName ≠ ProcessName item)
               then false else true) = true
              <-> ProcessName item = "" \/ ProcessName item = processName).
  { destruct (decide (ProcessName item = "")) as [E1|N1];
      destruct (decide (processName = ProcessName item)) as [E2|N2];
      repeat case_bool_decide; simpl; split; intros X; try done; try tauto;
      try (destruct X; congruence); auto. }
  unfold canBeApplied. rewrite Z.gtb_ltb.
  destruct (Z.ltb_spec 0 (DeploymentVersion item)) as [Hpos|Hnonpos];
    destruct (Z.eqb_spec version (DeploymentVersion item)) as [Heq|Hne]; simpl.
  - rewrite S. split; [intros X; split; [by right|done]|by intros [_ X]].
  - split; [done|]. intros [[X|X] _]; [lia|congruence].
  - rewrite S. split; [intros X; split; [by left|done]|by intros [_ X]].
  - rewrite S. split; [intros X; split; [by left|done]|by intros [_ X]].
Qed.

(** A build of one metadata overlay whose applicable items are valid. *)
Lemma newProcess_one_overlay
    {on : bucket -> (option (gmap string string) -> option (gmap string string)) ->
          process -> process}
    {view : bucket -> process -> option (gmap string string)}
    {access : BucketAccess on view}
    (overlay : list MetadataItem -> Z -> processOption)
    (Hoverlay : forall items version p,
        overlay items version p = overlayItems on items version p)
    (name : string) (items : list MetadataItem) (version : Z) :
  Forall (validIfApplied name version) items ->
  exists p' t,
    overlay items version (newDescriptor name false) = (p', t, inl tt)
    /\ newProcess name false [overlay items version]
       = (Some (set_Env (Env p' ++ portEnvVariables p') p'), None).
Proof.
  intros Hvalid.
  pose proof (overlayItems_succeeds (on:=on) items version (newDescriptor name false) Hvalid) as Hok.
  pose proof (overlayItems_frame (on:=on) items version (newDescriptor name false))
    as (_ & HR & _).
  rewrite <- Hoverlay in Hok, HR.
  destruct (overlay items version (newDescriptor name false)) as [[p' t] r] eqn:E.
  simpl in Hok, HR. subst r. exists p', t. split; [done|].
  rewrite (newProcess_after_options name false [overlay items version] p' t).
  - by rewrite HR.
  - simpl. unfold bind. rewrite E. simpl. by rewrite app_nil_r.
Qed.

(** C4, as the code has it. A metadata item applies exactly when its
    deployment version is not positive (zero, unset, or negative) or
    equals the version of the build, and its process name is empty or
    equals the name of the process. An item without filters applies to
    every process, one for process [worker] only to [worker], and one
    for version 2 only to version 2. *)
Theorem canBeApplied_scoping :
  (forall item processName version,
      canBeApplied item processName version = true
      <-> (DeploymentVersion item <= 0 \/ DeploymentVersion item = version)
          /\ (ProcessName item = "" \/ ProcessName item = processName))
  /\ (forall target pairs processName version,
        canBeApplied
          {| Target := target; DeploymentVersion := 0; ProcessName := ""; Apply := pairs |}
          processName version = true)
  /\ (forall target pairs processName version,
        canBeApplied
          {| Target := target; DeploymentVersion := 0; ProcessName := "worker";
             Apply := pairs |}
          processName version = true
        <-> processName = "worker")
  /\ (forall target pairs processName version,
        canBeApplied
          {| Target := target; DeploymentVersion := 2; ProcessName := ""; Apply := pairs |}
          processName version = true
        <-> version = 2).
Proof.
  split; [exact canBeApplied_true|]. split; [|split].
  - intros target pairs processName version. apply canBeApplied_true. simpl.
    split; left; [lia|done].
  - intros target pairs processName version. rewrite canBeApplied_true. simpl. split.
    + intros [_ [H|H]]; [done|by symmetry].
    + intros ->. split; [left; lia|by right].
  - intros target pairs processName version. rewrite canBeApplied_true. simpl. split.
    + intros [[H|H] _]; [lia|by symmetry].
    + intros ->. split; [by right|by left].
Qed.

(** C5. Within one overlay list that runs to its end, of two items
    that pass the scoping test, target the same bucket and share a key,
    the later one gives the key its final value in the map of that
    bucket (the last item applied wins); a key is decided by the last
    item that carries it, so keys the two items do not share are not
    affected by the other item, and keys no item carries keep their
    value. Label items [tier:a] then [tier:b] for the deployment leave
    the deployment label [tier] at [b]. *)
Theorem later_metadata_item_wins :
  (laterOverridesEarlier withLabels labelsOf
   /\ laterOverridesEarlier withAnnotations annotationsOf)
  /\ (lastWriterDecides withLabels labelsOf
      /\ lastWriterDecides withAnnotations annotationsOf)
  /\ (unwrittenKeysKept withLabels labelsOf
      /\ unwrittenKeysKept withAnnotations annotationsOf)
  /\ (forall target name version a b,
        IsDeployment target = true ->
        Validate {| Target := target; DeploymentVersion := 0; ProcessName := "";
                    Apply := {[ "tier" := a ]} |} = None ->
        Validate {| Target := target; DeploymentVersion := 0; ProcessName := "";
                    Apply := {[ "tier" := b ]} |} = None ->
        exists d,
          newProcess name false
            [withLabels
               [ {| Target := target; DeploymentVersion := 0; ProcessName := "";
                    Apply := {[ "tier" := a ]} |};
                 {| Target := target; DeploymentVersion := 0; ProcessName := "";
                    Apply := {[ "tier" := b ]} |} ] version]
          = (Some d, None)
          /\ valueAt (Labels (DeploymentMetadata d)) "tier" = Some b).
Proof.
  assert (L : lastWriterDecides withLabels labelsOf).
  { intros items version p p' t b before item after k value Hrun.
    rewrite withLabels_overlayItems in Hrun. by eapply overlayItems_last_writer. }
  assert (A : lastWriterDecides withAnnotations annotationsOf).
  { intros items version p p' t b before item after k value Hrun.
    rewrite withAnnotations_overlayItems in Hrun. by eapply overlayItems_last_writer. }
  split; [|split; [done|split]].
  - split.
    + intros items version p p' t b before earlier between later after k value Hrun ->.
      intros _. apply (L _ _ _ _ _ _ (before ++ earlier :: between) _ _ _ _ Hrun).
      by rewrite <- app_assoc.
    + intros items version p p' t b before earlier between later after k value Hrun ->.
      intros _. apply (A _ _ _ _ _ _ (before ++ earlier :: between) _ _ _ _ Hrun).
      by rewrite <- app_assoc.
  - split.
    + intros items version p p' t b k Hrun. rewrite withLabels_overlayItems in Hrun.
      by eapply overlayItems_unwritten.
    + intros items version p p' t b k Hrun. rewrite withAnnotations_overlayItems in Hrun.
      by eapply overlayItems_unwritten.
  - intros target name version a b Hdep Ha Hb.
    set (first := {| Target := target; DeploymentVersion := 0; ProcessName := "";
                     Apply := {[ "tier" := a ]} |}) in *.
    set (second := {| Target := target; DeploymentVersion := 0; ProcessName := "";
                      Apply := {[ "tier" := b ]} |}) in *.
    destruct (newProcess_one_overlay withLabels withLabels_overlayItems name
                [first; second] version) as (p' & t & Hrun & Hnew).
    { repeat constructor; by intros _. }
    eexists. split; [exact Hnew|]. simpl.
    change (Labels (DeploymentMetadata p')) with (labelsOf DeploymentBucket p').
    eapply (L _ _ _ _ _ DeploymentBucket [first] second []); [exact Hrun|done| | | |done].
    + apply canBeApplied_true. simpl. split; left; [lia|done].
    + unfold bucketOf. simpl. by rewrite Hdep.
    + simpl. apply lookup_singleton_eq.
Qed.

(** C7, as the code has it. The overlay asks the port source for the
    service ports and the container ports of the process and assigns
    them. It asks for the probes exactly when both lists are non-empty.
    With an empty list it succeeds and leaves the probes and the public
    service port as they were. With both lists non-empty, probes
    returned by the port source are assigned and the public service port
    becomes the first service port, while a failure of the port source
    is returned as the error of the overlay, probes and public service
    port being left as they were. *)
Theorem withPortsAndProbes_wiring (c : portConfigurator) (p : process) :
  let run := withPortsAndProbes c p in
  let p' := run.1.1 in
  (ServicePorts p' = ServicePortsForProcess c (Name p)
   /\ ContainerPorts p' = ContainerPortsForProcess c (Name p))
  /\ (AskProbes ∈ run.1.2 <-> ContainerPorts p' <> [] /\ ServicePorts p' <> [])
  /\ (ContainerPorts p' = [] \/ ServicePorts p' = [] ->
      run.2 = inl tt
      /\ ReadinessProbe p' = ReadinessProbe p /\ LivenessProbe p' = LivenessProbe p
      /\ StartupProbe p' = StartupProbe p /\ PublicServicePort p' = PublicServicePort p)
  /\ (forall probes,
        ContainerPorts p' <> [] -> ServicePorts p' <> [] -> Probes c = inl probes ->
        run.2 = inl tt
        /\ ReadinessProbe p' = Probes.Readiness probes
        /\ LivenessProbe p' = Probes.Liveness probes
        /\ StartupProbe p' = Probes.StartupProbe probes
        /\ Some (PublicServicePort p') = v1.ServicePort.Port <$> head (ServicePorts p'))
  /\ (forall err,
        ContainerPorts p' <> [] -> ServicePorts p' <> [] -> Probes c = inr err ->
        run.2 = inr err
        /\ ReadinessProbe p' = ReadinessProbe p /\ LivenessProbe p' = LivenessProbe p
        /\ StartupProbe p' = StartupProbe p /\ PublicServicePort p' = PublicServicePort p).
Proof.
  simpl. rewrite withPortsAndProbes_run. simpl.
  assert (N : forall name, AskProbes ∉ [AskServicePorts name; AskContainerPorts name]).
  { intros name H. repeat (apply elem_of_cons in H as [H|H]; [done|]).
    by apply elem_of_nil in H. }
  assert (Y : forall name,
             AskProbes ∈ [AskServicePorts name; AskContainerPorts name] ++ [AskProbes]).
  { intros name. apply elem_of_app. right. apply list_elem_of_singleton. done. }
  destruct (ContainerPortsForProcess c (Name p)) as [|cp0 cps] eqn:Hc;
    destruct (ServicePortsForProcess c (Name p)) as [|sp0 sps] eqn:Hs; simpl.
  1-3: split_and!; try done; try (intros; exfalso; tauto);
       split; [intros H; by apply N in H|intros [? ?]; done].
  destruct (Probes c) as [probes|err] eqn:Hp; simpl.
  - split_and!; try done; try (intros [?|?]; done); try (intros; simplify_eq; done).
    split; [done|intros _; apply Y].
  - split_and!; try done; try (intros [?|?]; done); try (intros; simplify_eq; done).
    split; [done|intros _; apply Y].
Qed.

(** C8. In a label or annotation overlay list, an item whose content
    validation is run and fails aborts the build at once: the overlay
    returns the validation error of that item, which is a failure of the
    build and not a skip, [newProcess] returns that error and no
    descriptor, and the failed validation is the last call made. *)
Theorem failed_validation_aborts_build :
  abortsWhenValidationFails withLabels /\ abortsWhenValidationFails withAnnotations.
Proof.
  split.
  - intros name isRoutable pre post items version item err p1 t1 Hpre _ Hcalled Herr.
    rewrite withLabels_overlayItems in Hcalled.
    destruct (overlayItems_failed_validation (on:=onLabels) items item version p1 err)
      as (p2 & t2 & Hrun); [done..|].
    rewrite <- withLabels_overlayItems in Hrun.
    destruct (newProcess_failed_option name isRoutable
                (pre ++ withLabels items version :: post)
                p2 (t1 ++ t2 ++ [AskValidate item]) err) as [Hnew Hcalls].
    { by eapply applyOpts_stops. }
    split; [exact Hnew|]. exists (t1 ++ t2). by rewrite Hcalls, app_assoc.
  - intros name isRoutable pre post items version item err p1 t1 Hpre _ Hcalled Herr.
    rewrite withAnnotations_overlayItems in Hcalled.
    destruct (overlayItems_failed_validation (on:=onAnnotations) items item version p1 err)
      as (p2 & t2 & Hrun); [done..|].
    rewrite <- withAnnotations_overlayItems in Hrun.
    destruct (newProcess_failed_option name isRoutable
                (pre ++ withAnnotations items version :: post)
                p2 (t1 ++ t2 ++ [AskValidate item]) err) as [Hnew Hcalls].
    { by eapply applyOpts_stops. }
    split; [exact Hnew|]. exists (t1 ++ t2). by rewrite Hcalls, app_assoc.
Qed.

(** C9, as the code has it. Built with no overlay and not routable, a
    descriptor has no container port and no service port, the default
    number of units, and nil label and annotation maps in its three
    buckets, which are thus empty. The maps are not allocated when the
    descriptor is created: an overlay allocates a map with the first
    pair it stores in it, so that an applied item without pairs leaves
    the map nil and an applied item with pairs makes it those pairs. *)
Theorem newProcess_without_overlays (name : string) :
  let d := newDescriptor name false in
  newProcess name false [] = (Some d, None)
  /\ ContainerPorts d = [] /\ ServicePorts d = []
  /\ Units d = DefaultNumberOfUnits
  /\ (forall b, labelsOf b d = None /\ annotationsOf b d = None)
  /\ (forall item version b,
        canBeApplied item name version = true ->
        Validate item = None ->
        bucketOf (Target item) = Some b ->
        labelsOf b (withLabels [item] version d).1.1
          = (if decide (Apply item = ∅) then None else Some (Apply item))
        /\ annotationsOf b (withAnnotations [item] version d).1.1
          = (if decide (Apply item = ∅) then None else Some (Apply item))).
Proof.
  simpl. split_and!; try done.
  - intros b. by destruct b.
  - intros item version b Happ Hvalid Hb.
    rewrite withLabels_overlayItems, withAnnotations_overlayItems. simpl.
    rewrite Happ, Hvalid. simpl. unfold mergeItem. rewrite Hb, !view_on_same.
    unfold mergeApply. destruct (decide (Apply item = ∅)); [by destruct b|].
    destruct b; simpl; by rewrite (right_id_L ∅ (∪)).
Qed.

(** C10. An item that does not pass the scoping test is skipped before
    its validation: the overlay never calls the validation of such an
    item, and it succeeds as soon as the items that do pass the test are
    valid, however invalid the others are; a build of such an overlay
    returns a descriptor. *)
Theorem skipped_item_is_not_validated :
  (skipsBeforeValidation withLabels /\ skipsBeforeValidation withAnnotations)
  /\ (forall name items version,
        Forall (validIfApplied name version) items ->
        (exists d, newProcess name false [withLabels items version] = (Some d, None))
        /\ (exists d, newProcess name false [withAnnotations items version] = (Some d, None))).
Proof.
  split; [split|].
  - intros items version p. rewrite withLabels_overlayItems. split.
    + intros item. apply overlayItems_skipped_not_validated.
    + apply overlayItems_succeeds.
  - intros items version p. rewrite withAnnotations_overlayItems. split.
    + intros item. apply overlayItems_skipped_not_validated.
    + apply overlayItems_succeeds.
  - intros name items version Hvalid. split.
    + destruct (newProcess_one_overlay withLabels withLabels_overlayItems name items version
                  Hvalid) as (p' & t & _ & Hnew). eauto.
    + destruct (newProcess_one_overlay withAnnotations withAnnotations_overlayItems name
                  items version Hvalid) as (p' & t & _ & Hnew). eauto.
Qed.

End Properties.

(** * The builder at work on the sample platform *)

Lemma newProcess_checks_ports_witness :
  let opts := [withCmd ["serve"]; withPortsAndProbes noPorts] in
  let run := applyOpts opts (newDescriptor "web" true) in
  run = (run.1.1, run.1.2, inl tt)
  /\ newProcess "web" true opts = (None, Some ErrPortsNotFound).
Proof.
  intros opts run.
  assert (H : run = (run.1.1, run.1.2, inl tt)) by reflexivity.
  split; [exact H|].
  destruct (newProcess_checks_ports_of_routable_only "web" true opts _ _ H) as [[A _] _].
  apply A; [reflexivity|left; reflexivity].
Defined.

Lemma portEnvVariables_witness :
  let p := set_ContainerPorts
             [v1.ContainerPort.mk "http" 80 "TCP"; v1.ContainerPort.mk "https" 443 "TCP"]
             (newDescriptor "web" false) in
  Name p = "web"
  /\ map v1.ContainerPort.ContainerPort (ContainerPorts p) = [80; 443]
  /\ portEnvVariables p = [ketchv1.Env.mk "PORT_web" "80,443"].
Proof.
  intros p. split; [reflexivity|]. split; [reflexivity|].
  apply (proj2 portEnvVariables_is_reference p); reflexivity.
Defined.

Lemma newProcess_stops_witness :
  let pre := [withCmd ["serve"]] in
  let post := [withEnvs [ketchv1.Env.mk "MODE" "fast"]] in
  let opt := withPortsAndProbes brokenProbes in
  let run := applyOpts pre (newDescriptor "web" true) in
  run = (run.1.1, run.1.2, inl tt)
  /\ opt run.1.1 = ((opt run.1.1).1.1, (opt run.1.1).1.2, inr (ErrForeign "malformed probe"))
  /\ newProcess "web" true (pre ++ opt :: post) = (None, Some (ErrForeign "malformed probe")).
Proof.
  intros pre post opt run.
  assert (H1 : run = (run.1.1, run.1.2, inl tt)) by reflexivity.
  assert (H2 : opt run.1.1
               = ((opt run.1.1).1.1, (opt run.1.1).1.2, inr (ErrForeign "malformed probe")))
    by reflexivity.
  split; [exact H1|]. split; [exact H2|].
  exact (proj1 (proj2 (newProcess_stops_at_first_failure "web" true pre post opt
                         _ _ _ _ _ H1 H2))).
Defined.

Lemma canBeApplied_scoping_witness :
  canBeApplied (tierItem "a") "web" 7 = true
  <-> (DeploymentVersion (tierItem "a") <= 0 \/ DeploymentVersion (tierItem "a") = 7)
      /\ (ProcessName (tierItem "a") = "" \/ ProcessName (tierItem "a") = "web").
Proof. exact (proj1 canBeApplied_scoping (tierItem "a") "web" 7). Defined.

Lemma later_metadata_item_wins_witness :
  Validate (tierItem "a") = None
  /\ Validate (tierItem "b") = None
  /\ exists d,
      newProcess "web" false [withLabels [tierItem "a"; tierItem "b"] 3] = (Some d, None)
      /\ valueAt (Labels (DeploymentMetadata d)) "tier" = Some "b".
Proof.
  split; [reflexivity|]. split; [reflexivity|].
  apply (proj2 (proj2 (proj2 (later_metadata_item_wins (Api:=sampleApi))))
           TargetDeployment "web" 3 "a" "b");
    reflexivity.
Defined.

Lemma newProcess_appends_port_env_witness :
  let opts := [withEnvs [ketchv1.Env.mk "PORT" "9"]; withPortsAndProbes samplePorts] in
  exists d,
    newProcess "web" true opts = (Some d, None)
    /\ Env d = [ketchv1.Env.mk "PORT" "9"; ketchv1.Env.mk "port" "8080";
                ketchv1.Env.mk "PORT" "8080"; ketchv1.Env.mk "PORT_web" "8080"].
Proof.
  intros opts.
  destruct (newProcess "web" true opts) as [[d|] e] eqn:E; [|discriminate E].
  destruct e; [discriminate E|].
  destruct (newProcess_appends_port_env "web" true opts d E) as (p' & t & Hrun & Hd & HE & _).
  exists d. split; [reflexivity|]. rewrite HE. injection Hrun as <- _. reflexivity.
Defined.

Lemma withPortsAndProbes_wiring_witness :
  let run := withPortsAndProbes samplePorts (newDescriptor "web" true) in
  ContainerPorts run.1.1 <> [] /\ ServicePorts run.1.1 <> []
  /\ run.2 = inl tt /\ Some (PublicServicePort run.1.1) = Some 80.
Proof.
  intros run.
  assert (C : ContainerPorts run.1.1 <> []) by discriminate.
  assert (S : ServicePorts run.1.1 <> []) by discriminate.
  split; [exact C|]. split; [exact S|].
  destruct (withPortsAndProbes_wiring samplePorts (newDescriptor "web" true))
    as (_ & _ & _ & W & _).
  destruct (W _ C S eq_refl) as (Hok & _ & _ & _ & Hport).
  split; [exact Hok|exact Hport].
Defined.

Lemma failed_validation_aborts_build_witness :
  let pre := [withCmd ["serve"]] in
  let items := [tierItem "a"; workerOnlyMalformedItem; malformedItem; tierItem "b"] in
  let run := applyOpts pre (newDescriptor "web" false) in
  run = (run.1.1, run.1.2, inl tt)
  /\ malformedItem ∈ items
  /\ AskValidate malformedItem ∈ (withLabels items 3 run.1.1).1.2
  /\ Validate malformedItem = Some (ErrForeign "malformed metadata key")
  /\ newProcess "web" false (pre ++ withLabels items 3 :: [withUnits (Some 2)])
     = (None, Some (ErrForeign "malformed metadata key")).
Proof.
  intros pre items run.
  assert (H1 : run = (run.1.1, run.1.2, inl tt)) by reflexivity.
  assert (H2 : malformedItem ∈ items).
  { apply list_elem_of_further, list_elem_of_further, list_elem_of_here. }
  assert (H3 : AskValidate malformedItem ∈ (withLabels items 3 run.1.1).1.2).
  { vm_compute. apply list_elem_of_further, list_elem_of_here. }
  assert (H4 : Validate malformedItem = Some (ErrForeign "malformed metadata key")).
  { vm_compute. reflexivity. }
  split; [exact H1|]. split; [exact H2|]. split; [exact H3|]. split; [exact H4|].
  exact (proj1 (proj1 failed_validation_aborts_build "web" false pre [withUnits (Some 2)]
                  items 3 malformedItem (ErrForeign "malformed metadata key")
                  _ _ H1 H2 H3 H4)).
Defined.

Lemma newProcess_without_overlays_witness :
  canBeApplied (tierItem "a") "web" 3 = true
  /\ Validate (tierItem "a") = None
  /\ bucketOf (Target (tierItem "a")) = Some DeploymentBucket
  /\ labelsOf DeploymentBucket (newDescriptor "web" false) = None
  /\ labelsOf DeploymentBucket
       (withLabels [tierItem "a"] 3 (newDescriptor "web" false)).1.1
     = Some {[ "tier" := "a" ]}.
Proof.
  split; [reflexivity|]. split; [reflexivity|]. split; [reflexivity|].
  destruct (newProcess_without_overlays "web") as (_ & _ & _ & _ & Hnil & Hlazy).
  split; [exact (proj1 (Hnil DeploymentBucket))|].
  exact (proj1 (Hlazy (tierItem "a") 3 DeploymentBucket eq_refl eq_refl eq_refl)).
Defined.

Lemma skipped_item_is_not_validated_witness :
  canBeApplied workerOnlyMalformedItem "web" 3 = false
  /\ Validate workerOnlyMalformedItem = Some (ErrForeign "malformed metadata key")
  /\ (AskValidate workerOnlyMalformedItem
        ∉ (withLabels [tierItem "a"; workerOnlyMalformedItem] 3
             (newDescriptor "web" false)).1.2)
  /\ (withLabels [tierItem "a"; workerOnlyMalformedItem] 3 (newDescriptor "web" false)).2
     = inl tt.
Proof.
  split; [reflexivity|]. split; [vm_compute; reflexivity|].
  destruct (proj1 (proj1 skipped_item_is_not_validated)
              [tierItem "a"; workerOnlyMalformedItem] 3 (newDescriptor "web" false))
    as [A B].
  split; [exact (A workerOnlyMalformedItem eq_refl)|].
  apply B. constructor; [intros _; vm_compute; reflexivity|].
  constructor; [intros H; discriminate H|]. constructor.
Defined.

(** ** Where the code departs from the wording of the specification *)

(** An item whose version filter is negative applies to every version,
    although the filter is neither zero nor the version of the build. *)
Lemma canBeApplied_negative_version :
  ~ (canBeApplied negativeVersionItem "web" 5 = true
     <-> (DeploymentVersion negativeVersionItem = 0
          \/ DeploymentVersion negativeVersionItem = 5)
         /\ (ProcessName negativeVersionItem = ""
             \/ ProcessName negativeVersionItem = "web")).
Proof.
  intros [H _]. destruct (H eq_refl) as [[E|E] _]; discriminate E.
Qed.

(** With both port lists non-empty and a port source that fails to give
    its probes, the public service port is not set to the first service
    port. *)
Lemma withPortsAndProbes_failing_probes :
  let run := withPortsAndProbes brokenProbes (newDescriptor "web" true) in
  ~ ((ContainerPorts run.1.1 <> [] /\ ServicePorts run.1.1 <> [])
     <-> (AskProbes ∈ run.1.2
          /\ Some (PublicServicePort run.1.1)
             = v1.ServicePort.Port <$> head (ServicePorts run.1.1))).
Proof.
  intros run [H _]. destruct H as [_ E]; [split; discriminate|]. discriminate E.
Qed.

(** The maps of a fresh descriptor are nil, not empty maps. *)
Lemma fresh_metadata_maps_are_nil :
  ~ (exists d,
        newProcess "web" false [] = (Some d, None)
        /\ forall b, labelsOf b d = Some ∅ /\ annotationsOf b d = Some ∅).
Proof.
  intros (d & Hnew & Hmaps). injection Hnew as <-.
  destruct (Hmaps DeploymentBucket) as [E _]. discriminate E.
Qed.

(** * Further properties of the builder *)

Section MoreProperties.

Context {K8s : K8sObjects} {Api : KetchApi} {Val : Validator}.

Notation "x <- c1 ;; c2" := (bind c1 (fun x => c2))
  (at level 100, c1 at next level, right associativity).
Notation "c1 ;; c2" := (bind c1 (fun _ => c2))
  (at level 100, right associativity).

#[local] Existing Instance labels_access.
#[local] Existing Instance annotations_access.

(** ** What a returned descriptor went through *)

Lemma newProcess_returned (name : string) (isRoutable : bool) (opts : list processOption)
    (d : process) :
  newProcess name isRoutable opts = (Some d, None) ->
  exists p' t,
    applyOpts opts (newDescriptor name isRoutable) = (p', t, inl tt)
    /\ d = set_Env (Env p' ++ portEnvVariables p') p'
    /\ (Routable p' = true -> hasOpenPort p' = true).
Proof.
  intros Hnew.
  destruct (applyOpts opts (newDescriptor name isRoutable)) as [[p' t] [[]|err]] eqn:Hrun.
  - exists p', t. split; [done|].
    rewrite (newProcess_after_options _ _ _ _ _ Hrun) in Hnew.
    destruct (Routable p'), (hasOpenPort p'); simpl in Hnew; by simplify_eq.
  - destruct (newProcess_failed_option _ _ _ _ _ _ Hrun) as [Hfail _]. congruence.
Qed.

(** X1. [newProcess] returns a descriptor or an error, never both and
    never neither, and a routable descriptor it returns has a container
    port and a service port. *)
Theorem newProcess_returns_descriptor_or_error
    (name : string) (isRoutable : bool) (opts : list processOption) :
  (exists d,
      newProcess name isRoutable opts = (Some d, None)
      /\ (Routable d = true -> ContainerPorts d <> [] /\ ServicePorts d <> []))
  \/ (exists err, newProcess name isRoutable opts = (None, Some err)).
Proof.
  destruct (applyOpts opts (newDescriptor name isRoutable)) as [[p' t] [[]|err]] eqn:Hrun.
  - rewrite (newProcess_after_options _ _ _ _ _ Hrun).
    destruct (Routable p') eqn:HR; simpl.
    + destruct (hasOpenPort p') eqn:HP; simpl; [|right; eauto].
      left. eexists. split; [done|]. intros _. simpl.
      unfold hasOpenPort in HP.
      destruct (ContainerPorts p'), (ServicePorts p'); simpl in HP; done.
    + left. eexists. split; [done|]. simpl. congruence.
  - right. exists err. by destruct (newProcess_failed_option _ _ _ _ _ _ Hrun).
Qed.

(** ** Fields and the calls that assign them *)

Lemma withoutMetadata_overlayItems
    (on : bucket -> (option (gmap string string) -> option (gmap string string)) ->
          process -> process)
    (Hon : forall b f p, withoutMetadata (on b f p) = withoutMetadata p)
    (items : list MetadataItem) (version : Z) (p : process) :
  withoutMetadata (overlayItems on items version p).1.1 = withoutMetadata p.
Proof.
  assert (Hitem : forall item q, withoutMetadata (mergeItem on item q) = withoutMetadata q).
  { intros item q. unfold mergeItem. by destruct (bucketOf (Target item)). }
  assert (Hname : forall item q, Name (mergeItem on item q) = Name q).
  { intros item q. change (Name (withoutMetadata (mergeItem on item q)) = Name q).
    by rewrite Hitem. }
  revert p. induction items as [|item rest IH]; intros p; [done|]. simpl.
  destruct (canBeApplied item (Name p) version); [|apply IH].
  destruct (Validate item); [done|].
  specialize (IH (mergeItem on item p)). rewrite Hitem in IH.
  by destruct (overlayItems on rest version (mergeItem on item p)) as [[q t] r].
Qed.

Lemma withoutMetadata_withLabels (labels : list MetadataItem) (version : Z) (p : process) :
  withoutMetadata (withLabels labels version p).1.1 = withoutMetadata p.
Proof.
  rewrite withLabels_overlayItems. apply withoutMetadata_overlayItems.
  by intros [] f q.
Qed.

Lemma withoutMetadata_withAnnotations (annotations : list MetadataItem) (version : Z)
    (p : process) :
  withoutMetadata (withAnnotations annotations version p).1.1 = withoutMetadata p.
Proof.
  rewrite withAnnotations_overlayItems. apply withoutMetadata_overlayItems.
  by intros [] f q.
Qed.

Section FieldOfCalls.

(** A field, and the value each call assigns to it, if any. *)
Context {A : Type} (field : process -> A) (arg : optionCall -> option A).
Hypothesis field_step :
  forall call p, field (optionOf call p).1.1 = default (field p) (arg call).

Lemma applyOpts_field (calls : list optionCall) (p p' : process) (t : list event) :
  applyOpts (map optionOf calls) p = (p', t, inl tt) ->
  field p' = fold_left (fun acc call => default acc (arg call)) calls (field p).
Proof using field_step.
  revert p t. induction calls as [|call calls IH]; intros p t; simpl.
  - unfold ret. by intros [= <- _].
  - unfold bind. pose proof (field_step call p) as Hstep.
    destruct (optionOf call p) as [[p1 t1] [[]|err]]; [|done]. simpl in Hstep.
    destruct (applyOpts (map optionOf calls) p1) as [[p2 t2] r] eqn:E.
    intros [= <- _ ->]. rewrite (IH _ _ E). by rewrite Hstep.
Qed.

End FieldOfCalls.

(** A call leaves a field that no metadata overlay writes as it is, or
    assigns it: settled by running the call. *)
Ltac field_of_call call p :=
  destruct call as [[?|]| | |c| | | | | |labels version|annotations version]; simpl;
  try reflexivity;
  [ rewrite withPortsAndProbes_run; simpl;
    destruct (ContainerPortsForProcess c (Name p)), (ServicePortsForProcess c (Name p));
    try reflexivity; destruct (Probes c); reflexivity
  | match goal with
    | |- ?f (withLabels ?l ?v ?q).1.1 = _ =>
        change (f (withoutMetadata (withLabels l v q).1.1) = f (withoutMetadata q));
        by rewrite withoutMetadata_withLabels
    end
  | match goal with
    | |- ?f (withAnnotations ?l ?v ?q).1.1 = _ =>
        change (f (withoutMetadata (withAnnotations l v q).1.1) = f (withoutMetadata q));
        by rewrite withoutMetadata_withAnnotations
    end ].

Lemma Name_optionOf (call : optionCall) (p : process) :
  Name (optionOf call p).1.1 = default (Name p) ((fun _ => None) call).
Proof. field_of_call call p. Qed.

Lemma Routable_optionOf (call : optionCall) (p : process) :
  Routable (optionOf call p).1.1 = default (Routable p) ((fun _ => None) call).
Proof. field_of_call call p. Qed.

Lemma Units_optionOf (call : optionCall) (p : process) :
  Units (optionOf call p).1.1 = default (Units p) (unitsAssigned call).
Proof. field_of_call call p. Qed.

Lemma Cmd_optionOf (call : optionCall) (p : process) :
  Cmd (optionOf call p).1.1 = default (Cmd p) (cmdAssigned call).
Proof. field_of_call call p. Qed.

Lemma SecurityContext_optionOf (call : optionCall) (p : process) :
  SecurityContext (optionOf call p).1.1
  = default (SecurityContext p) (securityContextAssigned call).
Proof. field_of_call call p. Qed.

Lemma Lifecycle_optionOf (call : optionCall) (p : process) :
  Lifecycle (optionOf call p).1.1 = default (Lifecycle p) (lifecycleAssigned call).
Proof. field_of_call call p. Qed.

Lemma ResourceRequirements_optionOf (call : optionCall) (p : process) :
  ResourceRequirements (optionOf call p).1.1
  = default (ResourceRequirements p) (resourceRequirementsAssigned call).
Proof. field_of_call call p. Qed.

Lemma Volumes_optionOf (call : optionCall) (p : process) :
  Volumes (optionOf call p).1.1 = default (Volumes p) (volumesAssigned call).
Proof. field_of_call call p. Qed.

Lemma VolumeMounts_optionOf (call : optionCall) (p : process) :
  VolumeMounts (optionOf call p).1.1 = default (VolumeMounts p) (volumeMountsAssigned call).
Proof. field_of_call call p. Qed.

Lemma fold_left_keep {A : Type} (calls : list optionCall) (a : A) :
  fold_left (fun acc call => default acc ((fun _ => None) call)) calls a = a.
Proof. revert a. induction calls as [|call calls IH]; intros a; simpl; [done|apply IH]. Qed.

(** X2. No overlay of the package renames the process or changes its
    routability: a descriptor built from calls to the constructors of
    the package carries the name and the flag given to [newProcess]. *)
Theorem newProcess_keeps_name_and_routability
    (name : string) (isRoutable : bool) (calls : list optionCall) (d : process) :
  newProcess name isRoutable (map optionOf calls) = (Some d, None) ->
  Name d = name /\ Routable d = isRoutable.
Proof.
  intros (p' & t & Hrun & -> & _)%newProcess_returned. simpl. split.
  - rewrite (applyOpts_field Name _ Name_optionOf _ _ _ _ Hrun). by rewrite fold_left_keep.
  - rewrite (applyOpts_field Routable _ Routable_optionOf _ _ _ _ Hrun).
    by rewrite fold_left_keep.
Qed.

(** X3. The number of units of a built descriptor is the one of the
    last [withUnits] call that was given a value; [withUnits(nil)]
    assigns nothing, and without any assignment the descriptor has the
    default number of units. *)
Theorem newProcess_units_of_last_withUnits
    (name : string) (isRoutable : bool) (calls : list optionCall) (d : process) :
  newProcess name isRoutable (map optionOf calls) = (Some d, None) ->
  Units d = lastAssigned unitsAssigned calls DefaultNumberOfUnits.
Proof.
  intros (p' & t & Hrun & -> & _)%newProcess_returned. simpl.
  by rewrite (applyOpts_field Units _ Units_optionOf _ _ _ _ Hrun).
Qed.

(** X4. The command, security context, lifecycle, resource
    requirements, volumes and volume mounts of a built descriptor are
    each the argument of the last call to their overlay, a nil argument
    included, and nil when the overlay was never called; no other
    overlay touches them. *)
Theorem newProcess_fields_of_last_setter
    (name : string) (isRoutable : bool) (calls : list optionCall) (d : process) :
  newProcess name isRoutable (map optionOf calls) = (Some d, None) ->
  Cmd d = lastAssigned cmdAssigned calls []
  /\ SecurityContext d = lastAssigned securityContextAssigned calls None
  /\ Lifecycle d = lastAssigned lifecycleAssigned calls None
  /\ ResourceRequirements d = lastAssigned resourceRequirementsAssigned calls None
  /\ Volumes d = lastAssigned volumesAssigned calls []
  /\ VolumeMounts d = lastAssigned volumeMountsAssigned calls [].
Proof.
  intros (p' & t & Hrun & -> & _)%newProcess_returned. simpl. split_and!.
  - by rewrite (applyOpts_field Cmd _ Cmd_optionOf _ _ _ _ Hrun).
  - by rewrite (applyOpts_field SecurityContext _ SecurityContext_optionOf _ _ _ _ Hrun).
  - by rewrite (applyOpts_field Lifecycle _ Lifecycle_optionOf _ _ _ _ Hrun).
  - by rewrite (applyOpts_field ResourceRequirements _ ResourceRequirements_optionOf
                  _ _ _ _ Hrun).
  - by rewrite (applyOpts_field Volumes _ Volumes_optionOf _ _ _ _ Hrun).
  - by rewrite (applyOpts_field VolumeMounts _ VolumeMounts_optionOf _ _ _ _ Hrun).
Qed.


(** ** Wiring the ports more than once *)

(** X5. A port wiring that finds a port list empty replaces both port
    lists but returns before it reaches the probes and the public
    service port: those of an earlier, complete wiring stay on the
    descriptor, which then has a public service port and no open
    port. *)
Theorem withPortsAndProbes_leaves_stale_probes
    (c1 c2 : portConfigurator) (p : process) (cp0 : v1.ContainerPort.t)
    (cps : list v1.ContainerPort.t) (sp0 : v1.ServicePort.t) (sps : list v1.ServicePort.t)
    (probes : Probes.t v1_Probe) :
  ContainerPortsForProcess c1 (Name p) = cp0 :: cps ->
  ServicePortsForProcess c1 (Name p) = sp0 :: sps ->
  Probes c1 = inl probes ->
  ContainerPortsForProcess c2 (Name p) = [] \/ ServicePortsForProcess c2 (Name p) = [] ->
  let run := applyOpts [withPortsAndProbes c1; withPortsAndProbes c2] p in
  run.2 = inl tt
  /\ ContainerPorts run.1.1 = ContainerPortsForProcess c2 (Name p)
  /\ ServicePorts run.1.1 = ServicePortsForProcess c2 (Name p)
  /\ hasOpenPort run.1.1 = false
  /\ PublicServicePort run.1.1 = v1.ServicePort.Port sp0
  /\ LivenessProbe run.1.1 = Probes.Liveness probes
  /\ ReadinessProbe run.1.1 = Probes.Readiness probes
  /\ StartupProbe run.1.1 = Probes.StartupProbe probes.
Proof.
  intros Hc1 Hs1 Hp1 Hempty. simpl. unfold bind.
  rewrite withPortsAndProbes_run. simpl. rewrite Hc1, Hs1, Hp1.
  rewrite withPortsAndProbes_run. simpl. unfold hasOpenPort.
  destruct Hempty as [H|H]; rewrite H.
  - by destruct (ServicePortsForProcess c2 (Name p)).
  - by destruct (ContainerPortsForProcess c2 (Name p)).
Qed.

(** X6. Wiring the ports twice from the same port source is the same
    as wiring them once: the second run makes the same calls, returns
    the same error and leaves the descriptor as the first left it. *)
Theorem withPortsAndProbes_twice (c : portConfigurator) (p : process) :
  withPortsAndProbes c (withPortsAndProbes c p).1.1 = withPortsAndProbes c p.
Proof.
  rewrite (withPortsAndProbes_run c p). simpl.
  destruct (ContainerPortsForProcess c (Name p)) as [|cp0 cps] eqn:Hc;
    destruct (ServicePortsForProcess c (Name p)) as [|sp0 sps] eqn:Hs; simpl;
    try (rewrite withPortsAndProbes_run; simpl; by rewrite Hc, Hs).
  destruct (Probes c) as [probes|err] eqn:Hp; simpl;
    rewrite withPortsAndProbes_run; simpl; by rewrite Hc, Hs, Hp.
Qed.

(** X7. A routable process built from the port wiring alone: without
    a container port or without a service port the build fails with
    [ErrPortsNotFound], the probes never being asked for; with both, a
    failure of the port source to give its probes is the error of the
    build, and otherwise the descriptor returned has the ports, the
    probes, the first service port as public service port, and the
    derived port entries as its whole environment. *)
Theorem newProcess_routable_from_ports (name : string) (c : portConfigurator) :
  (ContainerPortsForProcess c name = [] \/ ServicePortsForProcess c name = [] ->
   newProcess name true [withPortsAndProbes c] = (None, Some ErrPortsNotFound)
   /\ AskProbes ∉ callsOfNewProcess name true [withPortsAndProbes c])
  /\ (forall err,
        ContainerPortsForProcess c name <> [] -> ServicePortsForProcess c name <> [] ->
        Probes c = inr err ->
        newProcess name true [withPortsAndProbes c] = (None, Some err))
  /\ (forall probes,
        ContainerPortsForProcess c name <> [] -> ServicePortsForProcess c name <> [] ->
        Probes c = inl probes ->
        exists d,
          newProcess name true [withPortsAndProbes c] = (Some d, None)
          /\ ContainerPorts d = ContainerPortsForProcess c name
          /\ ServicePorts d = ServicePortsForProcess c name
          /\ Some (PublicServicePort d) = v1.ServicePort.Port <$> head (ServicePorts d)
          /\ LivenessProbe d = Probes.Liveness probes
          /\ ReadinessProbe d = Probes.Readiness probes
          /\ StartupProbe d = Probes.StartupProbe probes
          /\ Env d = portEnvVariables d).
Proof.
  assert (One : forall (opt : processOption) q, applyOpts [opt] q = opt q).
  { intros opt q. simpl. unfold bind, ret.
    destruct (opt q) as [[q1 t1] [[]|e]]; by rewrite ?app_nil_r. }
  pose proof (withPortsAndProbes_run c (newDescriptor name true)) as Hrun.
  simpl in Hrun. rewrite <- One in Hrun.
  destruct (ContainerPortsForProcess c name) as [|cp0 cps] eqn:Hc;
    destruct (ServicePortsForProcess c name) as [|sp0 sps] eqn:Hs.
  1-3: split_and!; try (intros; done);
       intros _; rewrite (newProcess_after_options _ _ _ _ _ Hrun);
       split; [done|];
       unfold callsOfNewProcess, runNewProcess, bind; rewrite Hrun; simpl;
       intros H; repeat (apply elem_of_cons in H as [H|H]; [done|]);
       by apply elem_of_nil in H.
  destruct (Probes c) as [probes|err] eqn:Hp.
  - split_and!; try (intros [?|?]; done); try (intros; simplify_eq; done).
    intros probes' _ _ [= <-]. rewrite (newProcess_after_options _ _ _ _ _ Hrun).
    eexists. split; [done|]. by split_and!.
  - split_and!; try (intros [?|?]; done); try (intros; simplify_eq; done).
    intros err' _ _ [= <-]. by destruct (newProcess_failed_option _ _ _ _ _ _ Hrun).
Qed.

(** ** Labels, annotations and lists of items *)

Lemma forEach_app {A : Type} (l1 l2 : list A) (body : A -> M unit) (p : process) :
  forEach (l1 ++ l2) body p = bind (forEach l1 body) (fun _ => forEach l2 body) p.
Proof.
  revert p. induction l1 as [|x l1 IH]; intros p; simpl.
  - unfold bind, ret. by destruct (forEach l2 body p) as [[p2 t2] r].
  - unfold bind in *. destruct (body x p) as [[p1 t1] [[]|e]]; [|done].
    rewrite IH. destruct (forEach l1 body p1) as [[p2 t2] [[]|e]]; [|done].
    destruct (forEach l2 body p2) as [[p3 t3] r]. by rewrite app_assoc.
Qed.

(** X8. A metadata overlay over a list cut in two is the overlay of
    the first part followed by the overlay of the second: one
    [withLabels] (or [withAnnotations]) call on the whole list and two
    consecutive calls on its parts mutate the descriptor, call the
    validation and fail alike. *)
Theorem metadata_overlay_of_appended_lists
    (items1 items2 : list MetadataItem) (version : Z) (p : process) :
  withLabels (items1 ++ items2) version p
  = applyOpts [withLabels items1 version; withLabels items2 version] p
  /\ withAnnotations (items1 ++ items2) version p
     = applyOpts [withAnnotations items1 version; withAnnotations items2 version] p.
Proof.
  assert (R : forall (a b : processOption) q,
             bind a (fun _ => b) q = applyOpts [a; b] q).
  { intros a b q. simpl. unfold bind, ret.
    destruct (a q) as [[q1 t1] [[]|e]]; [|done].
    destruct (b q1) as [[q2 t2] [[]|e]]; by rewrite ?app_nil_r. }
  split; rewrite <- R.
  - unfold withLabels. apply forEach_app.
  - unfold withAnnotations. apply forEach_app.
Qed.

Lemma overlayItems_calls
    {on : bucket -> (option (gmap string string) -> option (gmap string string)) ->
          process -> process}
    {view : bucket -> process -> option (gmap string string)}
    {access : BucketAccess on view}
    (items : list MetadataItem) (version : Z) (p : process) :
  (overlayItems on items version p).1.2 = validationCalls (Name p) version items.
Proof.
  revert p. induction items as [|item rest IH]; intros p; [done|]. simpl.
  destruct (canBeApplied item (Name p) version); [|apply IH].
  destruct (Validate item); [done|].
  specialize (IH (mergeItem on item p)). rewrite Name_mergeItem in IH.
  destruct (overlayItems on rest version (mergeItem on item p)) as [[q t] r].
  simpl in *. by rewrite IH.
Qed.

(** X9. The calls a metadata overlay makes are the validations of the
    items that pass the scoping test for the name of the descriptor, one
    call an item, in the order of the list, the validation that fails
    being the last; nothing else is called. *)
Theorem metadata_overlay_calls (items : list MetadataItem) (version : Z) (p : process) :
  (withLabels items version p).1.2 = validationCalls (Name p) version items
  /\ (withAnnotations items version p).1.2 = validationCalls (Name p) version items.
Proof.
  rewrite withLabels_overlayItems, withAnnotations_overlayItems.
  split; apply overlayItems_calls.
Qed.

Lemma overlayItems_other_view
    (on : bucket -> (option (gmap string string) -> option (gmap string string)) ->
          process -> process)
    (other : process -> option (gmap string string))
    (Hon : forall b f p, other (on b f p) = other p)
    (items : list MetadataItem) (version : Z) (p : process) :
  other (overlayItems on items version p).1.1 = other p.
Proof.
  assert (Hitem : forall item q, other (mergeItem on item q) = other q).
  { intros item q. unfold mergeItem. by destruct (bucketOf (Target item)). }
  revert p. induction items as [|item rest IH]; intros p; [done|]. simpl.
  destruct (canBeApplied item (Name p) version); [|apply IH].
  destruct (Validate item); [done|].
  specialize (IH (mergeItem on item p)). rewrite Hitem in IH.
  by destruct (overlayItems on rest version (mergeItem on item p)) as [[q t] r].
Qed.

(** X10. Labels and annotations are apart: [withLabels] leaves the
    annotation map of every bucket as it is and [withAnnotations] the
    label map of every bucket, whether they succeed or fail, and
    neither writes any field of the descriptor outside the metadata
    buckets. *)
Theorem labels_and_annotations_are_apart
    (items : list MetadataItem) (version : Z) (p : process) (b : bucket) :
  annotationsOf b (withLabels items version p).1.1 = annotationsOf b p
  /\ labelsOf b (withAnnotations items version p).1.1 = labelsOf b p
  /\ withoutMetadata (withLabels items version p).1.1 = withoutMetadata p
  /\ withoutMetadata (withAnnotations items version p).1.1 = withoutMetadata p.
Proof.
  split_and!.
  - rewrite withLabels_overlayItems.
    apply (overlayItems_other_view onLabels (annotationsOf b)).
    intros b' f q. by destruct b, b'.
  - rewrite withAnnotations_overlayItems.
    apply (overlayItems_other_view onAnnotations (labelsOf b)).
    intros b' f q. by destruct b, b'.
  - apply withoutMetadata_withLabels.
  - apply withoutMetadata_withAnnotations.
Qed.

Lemma overlayItems_unchanged
    (on : bucket -> (option (gmap string string) -> option (gmap string string)) ->
          process -> process)
    (Hon : forall b p, on b (fun m => m) p = p)
    (Hext : forall b f g p, (forall m, f m = g m) -> on b f p = on b g p)
    (items : list MetadataItem) (version : Z) (p : process) :
  Forall (fun item =>
            canBeApplied item (Name p) version = true ->
            bucketOf (Target item) = None \/ Apply item = ∅) items ->
  (overlayItems on items version p).1.1 = p.
Proof.
  intros Hitems. induction Hitems as [|item rest Hitem Hrest IH]; [done|]. simpl.
  destruct (canBeApplied item (Name p) version); [|apply IH].
  destruct (Validate item); [done|].
  assert (E : mergeItem on item p = p).
  { unfold mergeItem. destruct (Hitem eq_refl) as [->|Hnone]; [done|].
    destruct (bucketOf (Target item)); [|done].
    rewrite <- (Hon b p) at 2. apply Hext. intros m.
    unfold mergeApply. by rewrite decide_True. }
  rewrite E. by destruct (overlayItems on rest version p) as [[q t] r].
Qed.

(** X11. An item that passes the scoping test is validated, but it
    changes nothing when its target is neither a deployment, a service
    nor a pod, or when it carries no pair: an overlay of such items
    leaves the descriptor exactly as it was, nil maps included. *)
Theorem metadata_overlay_without_effect
    (items : list MetadataItem) (version : Z) (p : process) :
  Forall (fun item =>
            canBeApplied item (Name p) version = true ->
            bucketOf (Target item) = None \/ Apply item = ∅) items ->
  (withLabels items version p).1.1 = p
  /\ (withAnnotations items version p).1.1 = p.
Proof.
  intros Hitems. rewrite withLabels_overlayItems, withAnnotations_overlayItems.
  split; apply overlayItems_unchanged; try done.
  - intros [] q; destruct q as [? ? ? ? ? ? ? ? ? ? ? ? ? ? ? ? ? [? ?] [? ?] [? ?]];
      reflexivity.
  - intros [] f g q Hfg; simpl;
      unfold onDeploymentLabels, onServiceLabels, onPodLabels; by rewrite Hfg.
  - intros [] q; destruct q as [? ? ? ? ? ? ? ? ? ? ? ? ? ? ? ? ? [? ?] [? ?] [? ?]];
      reflexivity.
  - intros [] f g q Hfg; simpl;
      unfold onDeploymentAnnotations, onServiceAnnotations, onPodAnnotations;
      by rewrite Hfg.
Qed.

End MoreProperties.

(** * Properties of the export of a framework *)

Section ExportProperties.

Context {Rest : Type}.

(** Runs [exportFramework] through every outcome of its calls. *)
Ltac run_export w options :=
  unfold exportFramework, marshalAndWrite, leavesEmptyFile;
  destruct (clientGet w (frameworkName options)) as [framework|getErr] eqn:HGet;
  [case_bool_decide;
   [destruct (osStat w (filename options)) as [| |statMsg] eqn:HStat;
    [|destruct (osCreate w (filename options)) as [createErr|] eqn:HCreate;
      [|destruct (yamlMarshal w (Framework.Spec (nameSpec framework)))
          as [bytes|marshalErr] eqn:HMarshal]|]
   |destruct (yamlMarshal w (Framework.Spec (nameSpec framework)))
      as [bytes|marshalErr] eqn:HMarshal]|];
  simpl in *.

(** Settles the membership of an event in a trace that is written out. *)
Ltac in_trace :=
  repeat match goal with
         | H : _ ∈ _ :: _ |- _ => apply elem_of_cons in H as [H|H]
         | H : _ ∈ [] |- _ => by apply elem_of_nil in H
         | H : _ = _ |- _ => progress simplify_eq
         end.

(** Finds an event in a trace that is written out. *)
Ltac found := repeat first [apply list_elem_of_here | apply list_elem_of_further].

(** X12. The command creates no file but the one named by the [file]
    option, and only when [os.Stat] has reported that it does not
    exist: with a file name and any other answer of [os.Stat], a failed
    lookup of the file included, it returns [errFileExists] and neither
    creates, encodes nor writes anything. *)
Theorem exportFramework_creates_only_missing_file
    (w : exportWorld Rest) (options : frameworkExportOptions) :
  (forall path,
      EvCreate path ∈ (exportFramework w options).1 ->
      path = filename options /\ path <> "" /\ osStat w path = StatNotExist)
  /\ (forall framework,
        clientGet w (frameworkName options) = inl framework ->
        filename options <> "" ->
        osStat w (filename options) <> StatNotExist ->
        exportFramework w options
        = ([EvGet (frameworkName options); EvStat (filename options)], Some errFileExists)).
Proof.
  split.
  - intros path. run_export w options; intros Hin; in_trace; done.
  - intros framework' HG Hname Hstat. run_export w options; by simplify_eq.
Qed.

(** X13. The command writes at most once. Whatever it writes is the
    encoding of the specification of the framework it was asked for,
    with the name of the framework put in as the name of the
    specification, and that write is then its only one; it goes to the
    file of the [file] option when there is one and to the given writer
    otherwise. *)
Theorem exportFramework_writes_named_spec
    (w : exportWorld Rest) (options : frameworkExportOptions) :
  (length (writesOf (exportFramework w options).1) <= 1)%nat
  /\ forall out b,
      EvWrite out b ∈ (exportFramework w options).1 ->
      writesOf (exportFramework w options).1 = [(out, b)]
      /\ exists framework,
          clientGet w (frameworkName options) = inl framework
          /\ yamlMarshal w
               (FrameworkSpec.mk (Framework.Name framework)
                  (FrameworkSpec.Others (Framework.Spec framework))) = inl b
          /\ out = (if decide (filename options = "") then GivenWriter
                    else CreatedFile (filename options)).
Proof.
  split.
  - run_export w options; lia.
  - intros out b. run_export w options; intros Hin; in_trace;
      (split; [reflexivity|]); exists framework;
      (split; [done|]); (split; [done|]);
      by rewrite ?decide_True, ?decide_False by (done || tauto).
Qed.

(** X14. The command returns no error exactly when the framework is
    found, the file, if one is named, is reported missing and is
    created, the specification is encoded, and the write succeeds. *)
Theorem exportFramework_succeeds_iff
    (w : exportWorld Rest) (options : frameworkExportOptions) :
  (exportFramework w options).2 = None
  <-> exists framework b,
        clientGet w (frameworkName options) = inl framework
        /\ (filename options = ""
            \/ (osStat w (filename options) = StatNotExist
                /\ osCreate w (filename options) = None))
        /\ yamlMarshal w (Framework.Spec (nameSpec framework)) = inl b
        /\ writeTo w (if decide (filename options = "") then GivenWriter
                      else CreatedFile (filename options)) b = None.
Proof.
  destruct (decide (filename options = "")) as [Hnone|Hfilename];
    run_export w options; try (exfalso; tauto);
    (split; [intros Hin|intros (fw & b & HG & Hfile & HM & HW)]);
    try discriminate Hin; simplify_eq;
    try (destruct Hfile as [?|[? ?]]; by simplify_eq);
    try (exists framework, bytes; by split_and!; auto);
    congruence.
Qed.

(** X15. The file the command has created is closed, whatever happens
    after its creation, and closing it is the last thing the command
    does; nothing is closed that was not created. *)
Theorem exportFramework_closes_created_file
    (w : exportWorld Rest) (options : frameworkExportOptions) (path : string) :
  (EvClose path ∈ (exportFramework w options).1
   <-> EvCreate path ∈ (exportFramework w options).1 /\ osCreate w path = None)
  /\ (EvClose path ∈ (exportFramework w options).1 ->
      last (exportFramework w options).1 = Some (EvClose path)).
Proof.
  run_export w options;
    (split; [split; [intros Hin|intros [Hin Hc]]|intros Hin]);
    in_trace; try done; try congruence; try (split; [|done]); found.
Qed.

(** X16. The file is created before the specification is encoded: when
    the encoding fails, the command returns the error of the encoder and
    leaves the new file behind, empty and closed. *)
Theorem exportFramework_failed_encoding_leaves_empty_file
    (w : exportWorld Rest) (options : frameworkExportOptions)
    (fw : Framework.t Rest) (err : exportError) :
  clientGet w (frameworkName options) = inl fw ->
  filename options <> "" ->
  osStat w (filename options) = StatNotExist ->
  osCreate w (filename options) = None ->
  yamlMarshal w (Framework.Spec (nameSpec fw)) = inr err ->
  (exportFramework w options).2 = Some err
  /\ leavesEmptyFile (filename options) (exportFramework w options).1
  /\ last (exportFramework w options).1 = Some (EvClose (filename options)).
Proof.
  intros HG Hname HS HC HM. run_export w options; simplify_eq; try congruence.
  split_and!; try done; [congruence|found|intros b Hin; by in_trace].
Qed.

(** X17. The cluster is asked for the framework first and once; when it
    fails, its error is returned and the file system, the encoder and
    the writers are not called at all. *)
Theorem exportFramework_asks_cluster_first
    (w : exportWorld Rest) (options : frameworkExportOptions) :
  exists t,
    (exportFramework w options).1 = EvGet (frameworkName options) :: t
    /\ (forall name, EvGet name ∉ t)
    /\ (forall err,
          clientGet w (frameworkName options) = inr err ->
          exportFramework w options = ([EvGet (frameworkName options)], Some err)).
Proof.
  run_export w options; eexists; (split; [reflexivity|]);
    (split; [intros name Hin; by in_trace|]); intros err' H'; by simplify_eq.
Qed.

End ExportProperties.

(** * The further properties at work on the samples *)

Lemma newProcess_keeps_name_and_routability_witness :
  let calls := [CallWithCmd ["serve"]; CallWithLabels [tierItem "a"] 3;
                CallWithPortsAndProbes samplePorts] in
  exists d,
    newProcess "web" true (map optionOf calls) = (Some d, None)
    /\ Name d = "web" /\ Routable d = true.
Proof.
  intros calls. eexists. split; [vm_compute; reflexivity|].
  apply (newProcess_keeps_name_and_routability "web" true calls).
  vm_compute. reflexivity.
Defined.

Lemma newProcess_units_of_last_withUnits_witness :
  let calls := [CallWithUnits (Some 3); CallWithCmd ["serve"]; CallWithUnits None] in
  exists d,
    newProcess "web" false (map optionOf calls) = (Some d, None) /\ Units d = 3.
Proof.
  intros calls.
  destruct (newProcess "web" false (map optionOf calls)) as [[d|] e] eqn:E; [|discriminate E].
  destruct e; [discriminate E|].
  exists d. split; [reflexivity|].
  rewrite (newProcess_units_of_last_withUnits "web" false calls d E). reflexivity.
Defined.

Lemma newProcess_fields_of_last_setter_witness :
  let calls := [CallWithCmd ["a"]; CallWithVolumes [tt]; CallWithCmd ["b"]] in
  exists d,
    newProcess "web" false (map optionOf calls) = (Some d, None)
    /\ Cmd d = ["b"] /\ Volumes d = [tt].
Proof.
  intros calls.
  destruct (newProcess "web" false (map optionOf calls)) as [[d|] e] eqn:E; [|discriminate E].
  destruct e; [discriminate E|].
  exists d. split; [reflexivity|].
  destruct (newProcess_fields_of_last_setter "web" false calls d E)
    as (HCmd & _ & _ & _ & HVolumes & _).
  rewrite HCmd, HVolumes. split; reflexivity.
Defined.

Lemma withPortsAndProbes_leaves_stale_probes_witness :
  let p := newDescriptor "web" true in
  let run := applyOpts [withPortsAndProbes samplePorts; withPortsAndProbes noPorts] p in
  ContainerPortsForProcess samplePorts (Name p) = [v1.ContainerPort.mk "http" 8080 "TCP"]
  /\ ServicePortsForProcess samplePorts (Name p) = [v1.ServicePort.mk "http" 80 "TCP"]
  /\ ContainerPortsForProcess noPorts (Name p) = []
  /\ hasOpenPort run.1.1 = false
  /\ PublicServicePort run.1.1 = 80.
Proof.
  intros p run. split; [reflexivity|]. split; [reflexivity|]. split; [reflexivity|].
  destruct (withPortsAndProbes_leaves_stale_probes samplePorts noPorts p
              (v1.ContainerPort.mk "http" 8080 "TCP") []
              (v1.ServicePort.mk "http" 80 "TCP") []
              (Probes.mk (Some "live") (Some "ready") None)
              eq_refl eq_refl eq_refl (or_introl eq_refl))
    as (_ & _ & _ & Hopen & Hport & _).
  split; [exact Hopen|exact Hport].
Defined.

Lemma newProcess_routable_from_ports_witness :
  ContainerPortsForProcess noPorts "web" = []
  /\ newProcess "web" true [withPortsAndProbes noPorts] = (None, Some ErrPortsNotFound).
Proof.
  split; [reflexivity|].
  exact (proj1 (proj1 (newProcess_routable_from_ports "web" noPorts) (or_introl eq_refl))).
Defined.

Lemma metadata_overlay_without_effect_witness :
  let p := newDescriptor "web" false in
  Forall (fun item =>
            canBeApplied item (Name p) 3 = true ->
            bucketOf (Target item) = None \/ Apply item = ∅)
    [emptyItem; workerOnlyEmptyItem]
  /\ (withLabels [emptyItem; workerOnlyEmptyItem] 3 p).1.1 = p.
Proof.
  intros p.
  assert (H : Forall (fun item =>
                        canBeApplied item (Name p) 3 = true ->
                        bucketOf (Target item) = None \/ Apply item = ∅)
                [emptyItem; workerOnlyEmptyItem]).
  { constructor; [intros _; right; reflexivity|].
    constructor; [intros _; right; reflexivity|]. constructor. }
  split; [exact H|].
  exact (proj1 (metadata_overlay_without_effect [emptyItem; workerOnlyEmptyItem] 3 p H)).
Defined.

Lemma exportFramework_creates_only_missing_file_witness :
  let options := {| frameworkName := "prod"; filename := "taken.yaml" |} in
  clientGet sampleWorld (frameworkName options) = inl sampleFramework
  /\ filename options <> ""
  /\ osStat sampleWorld (filename options) <> StatNotExist
  /\ exportFramework sampleWorld options
     = ([EvGet "prod"; EvStat "taken.yaml"], Some errFileExists).
Proof.
  intros options.
  assert (H1 : filename options <> "") by discriminate.
  assert (H2 : osStat sampleWorld (filename options) <> StatNotExist) by discriminate.
  split; [reflexivity|]. split; [exact H1|]. split; [exact H2|].
  exact (proj2 (exportFramework_creates_only_missing_file sampleWorld options)
           sampleFramework eq_refl H1 H2).
Defined.

Lemma exportFramework_writes_named_spec_witness :
  let options := {| frameworkName := "prod"; filename := "" |} in
  EvWrite GivenWriter "name: prod" ∈ (exportFramework sampleWorld options).1
  /\ writesOf (exportFramework sampleWorld options).1 = [(GivenWriter, "name: prod")]
  /\ exists framework,
      clientGet sampleWorld "prod" = inl framework
      /\ yamlMarshal sampleWorld
           (FrameworkSpec.mk (Framework.Name framework)
              (FrameworkSpec.Others (Framework.Spec framework))) = inl "name: prod".
Proof.
  intros options.
  assert (Hin : EvWrite GivenWriter "name: prod" ∈ (exportFramework sampleWorld options).1).
  { apply list_elem_of_further, list_elem_of_further, list_elem_of_here. }
  split; [exact Hin|].
  destruct (proj2 (exportFramework_writes_named_spec sampleWorld options) _ _ Hin)
    as (Hwrites & framework & HG & HM & _).
  split; [exact Hwrites|]. exists framework. split; [exact HG|exact HM].
Defined.

Lemma exportFramework_closes_created_file_witness :
  let options := {| frameworkName := "prod"; filename := "new.yaml" |} in
  EvClose "new.yaml" ∈ (exportFramework sampleWorld options).1
  /\ last (exportFramework sampleWorld options).1 = Some (EvClose "new.yaml").
Proof.
  intros options.
  assert (Hin : EvClose "new.yaml" ∈ (exportFramework sampleWorld options).1).
  { do 5 apply list_elem_of_further. apply list_elem_of_here. }
  split; [exact Hin|].
  exact (proj2 (exportFramework_closes_created_file sampleWorld options "new.yaml") Hin).
Defined.

Lemma exportFramework_failed_encoding_leaves_empty_file_witness :
  let options := {| frameworkName := "prod"; filename := "new.yaml" |} in
  clientGet brokenEncoderWorld (frameworkName options) = inl sampleFramework
  /\ filename options <> ""
  /\ osStat brokenEncoderWorld (filename options) = StatNotExist
  /\ osCreate brokenEncoderWorld (filename options) = None
  /\ yamlMarshal brokenEncoderWorld (Framework.Spec (nameSpec sampleFramework))
     = inr (ErrOfCall "cannot encode")
  /\ (exportFramework brokenEncoderWorld options).2 = Some (ErrOfCall "cannot encode")
  /\ leavesEmptyFile "new.yaml" (exportFramework brokenEncoderWorld options).1.
Proof.
  intros options.
  assert (H1 : filename options <> "") by discriminate.
  split; [reflexivity|]. split; [exact H1|]. split; [reflexivity|].
  split; [reflexivity|]. split; [reflexivity|].
  destruct (exportFramework_failed_encoding_leaves_empty_file brokenEncoderWorld options
              sampleFramework (ErrOfCall "cannot encode")
              eq_refl H1 eq_refl eq_refl eq_refl) as (Herr & Hempty & _).
  split; [exact Herr|exact Hempty].
Defined.
